(** * The real-time speech streaming engine of the voice assistant

  A shallow embedding of [internal/speech/azure.go]
  ([AzureWebSocketSpeechService]) and the properties its specification
  states about it.

  The engine is stateful Go code that talks to a WebSocket connection, an
  audio device and two caller callbacks.  It is modelled here as state
  passing over a [Service] record, with a trace of the effects each method
  performs; what the outside world answers (a dial that fails, a write that
  returns an error, the wall clock) is an explicit [Env] argument. *)

From Stdlib Require Import ZArith List String Ascii Bool Lia.
Import ListNotations.

Local Open Scope string_scope.
Local Open Scope Z_scope.

(** ** Fixed-width integers and [encoding/binary] *)

Module Wire.

(** Go's conversions [byte(x)], [uint16(x)], [int16(x)] and [int64(x)]:
    truncation to the low bits, with the signed types read in two's
    complement. *)
Definition byte (x : Z) : Z := x mod 256.
Definition uint16 (x : Z) : Z := x mod 65536.
Definition int16 (x : Z) : Z := (x + 32768) mod 65536 - 32768.
Definition int64 (x : Z) : Z :=
  (x + 9223372036854775808) mod 18446744073709551616 - 9223372036854775808.

(** [binary.BigEndian.PutUint16(b, v)]: [b[0] = byte(v >> 8)],
    [b[1] = byte(v)]. *)
Definition BigEndian_PutUint16 (v : Z) : list Z :=
  [byte (Z.shiftr v 8); byte v].

(** [binary.BigEndian.Uint16(b)]: [uint16(b[1]) | uint16(b[0])<<8]; it
    panics on a slice shorter than two bytes, which is [None] here. *)
Definition BigEndian_Uint16 (b : list Z) : option Z :=
  match b with
  | b0 :: b1 :: _ => Some (Z.lor (uint16 b1) (uint16 (Z.shiftl (uint16 b0) 8)))
  | _ => None
  end.

(** [binary.LittleEndian.PutUint16(b, v)]: [b[0] = byte(v)],
    [b[1] = byte(v >> 8)]. *)
Definition LittleEndian_PutUint16 (v : Z) : list Z :=
  [byte v; byte (Z.shiftr v 8)].

(** [[]byte(s)] for a Go string. *)
Definition bytes_of_string (s : string) : list Z :=
  List.map (fun c => Z.of_N (N_of_ascii c)) (list_ascii_of_string s).

(** [len(x)] as an [int]. *)
Definition len {A : Type} (l : list A) : Z := Z.of_nat (List.length l).

End Wire.


(** ** Byte strings: [bytes.Contains] and [bytes.Split]

    A Go [[]byte] holding text is a [string] here (a Rocq string is a
    sequence of 8-bit characters). *)

Module Bytes.

(** [bytes.Contains(b, subslice)]: [subslice] occurs somewhere in [b]. *)
Fixpoint Contains (b subslice : string) : bool :=
  if prefix subslice b then true
  else match b with
       | EmptyString => false
       | String _ b' => Contains b' subslice
       end.

(** The scan behind [bytes.Split]: [cur] is the piece read so far and
    [skip] counts the characters of a separator still to be stepped
    over. *)
Fixpoint splitFrom (sep s : string) (skip : nat) (cur : string) : list string :=
  match s with
  | EmptyString => [cur]
  | String c s' =>
      match skip with
      | S k => splitFrom sep s' k cur
      | O =>
          if prefix sep s
          then cur :: splitFrom sep s' (String.length sep - 1) EmptyString
          else splitFrom sep s' O (cur ++ String c EmptyString)
      end
  end.

(** [bytes.Split(s, sep)] for a non-empty [sep] (the engine's only
    separator is the four-character blank line): the pieces of [s] between
    the non-overlapping occurrences of [sep], found from the left. *)
Definition Split (s sep : string) : list string := splitFrom sep s O EmptyString.

End Bytes.

(** ** Constants of the protocol *)

Definition CRLF : string := String "013" (String "010" EmptyString).

(** The double-quote character, for JSON text. *)
Definition dquote : string := String "034" EmptyString.

(** [websocket.TextMessage], [websocket.BinaryMessage] and the two close
    codes the receive loop names. *)
Definition TextMessage : Z := 1.
Definition BinaryMessage : Z := 2.
Definition CloseNormalClosure : Z := 1000.
Definition CloseGoingAway : Z := 1001.

(** The message types of the const block. *)
Definition AudioMessageType : string := "audio".
Definition SpeechMessageType : string := "speech.endDetected".
Definition SpeechStartedType : string := "speech.startDetected".
Definition SpeechHypothesisType : string := "speech.hypothesis".
Definition SpeechPhraseType : string := "speech.phrase".
Definition TurnEndType : string := "turn.end".

Definition SampleRate : Z := 16000.
Definition Channels : Z := 1.
Definition FramesPerBuffer : Z := 1024.

(** ** Errors

    Go [error] values.  [Errorf format cause] is
    [fmt.Errorf(format, cause)] with its single [%v]. *)

Inductive error : Type :=
| CloseError (code : Z) (text : string)
| ErrorString (msg : string)
| Errorf (format : string) (cause : error).

(** [websocket.IsCloseError(err, codes...)]: [err] is a [*CloseError] whose
    code is one of [codes]. *)
Definition IsCloseError (err : error) (codes : list Z) : bool :=
  match err with
  | CloseError code _ => existsb (Z.eqb code) codes
  | _ => false
  end.

Inductive result (A : Type) : Type :=
| Ok (x : A)
| Err (e : error).
Arguments Ok {A} x.
Arguments Err {A} e.

(** ** The data model *)

(** Handles of the two external resources. *)
Definition Conn : Type := nat.
Definition Stream : Type := nat.

(** [SpeechResultMessage] and the element type of its [NBest] field. *)
Record NBestEntry : Type := mkNBest { Display : string }.

Record SpeechResultMessage : Type := mkResult {
  Path : string;
  RequestId : string;
  RecognitionStatus : string;
  DisplayText : string;
  Text : string;
  Offset : Z;
  Duration : Z;
  NBest : list NBestEntry
}.

(** [AzureWebSocketSpeechService].  A callback field is [true] when a
    function is registered and [false] when it is nil.  The mutex has no
    field: every method below is one atomic step. *)
Record Service : Type := mkService {
  subscriptionKey : string;
  region : string;
  language : string;
  conn : option Conn;
  isConnected : bool;
  isListening : bool;
  isShuttingDown : bool;
  stream : option Stream;
  audioBuffer : list Z;
  onRecognized : bool;
  onError : bool;
  sampleRate : Z;
  channels : Z;
  framesPerBuffer : Z;
  requestId : string;
  connectionId : string
}.

Definition with_conn (v : option Conn) (a : Service) : Service :=
  mkService (subscriptionKey a) (region a) (language a) v (isConnected a)
    (isListening a) (isShuttingDown a) (stream a) (audioBuffer a)
    (onRecognized a) (onError a) (sampleRate a) (channels a)
    (framesPerBuffer a) (requestId a) (connectionId a).

Definition with_isConnected (v : bool) (a : Service) : Service :=
  mkService (subscriptionKey a) (region a) (language a) (conn a) v
    (isListening a) (isShuttingDown a) (stream a) (audioBuffer a)
    (onRecognized a) (onError a) (sampleRate a) (channels a)
    (framesPerBuffer a) (requestId a) (connectionId a).

Definition with_isListening (v : bool) (a : Service) : Service :=
  mkService (subscriptionKey a) (region a) (language a) (conn a)
    (isConnected a) v (isShuttingDown a) (stream a) (audioBuffer a)
    (onRecognized a) (onError a) (sampleRate a) (channels a)
    (framesPerBuffer a) (requestId a) (connectionId a).

Definition with_isShuttingDown (v : bool) (a : Service) : Service :=
  mkService (subscriptionKey a) (region a) (language a) (conn a)
    (isConnected a) (isListening a) v (stream a) (audioBuffer a)
    (onRecognized a) (onError a) (sampleRate a) (channels a)
    (framesPerBuffer a) (requestId a) (connectionId a).

Definition with_stream (v : option Stream) (a : Service) : Service :=
  mkService (subscriptionKey a) (region a) (language a) (conn a)
    (isConnected a) (isListening a) (isShuttingDown a) v (audioBuffer a)
    (onRecognized a) (onError a) (sampleRate a) (channels a)
    (framesPerBuffer a) (requestId a) (connectionId a).

Definition with_audioBuffer (v : list Z) (a : Service) : Service :=
  mkService (subscriptionKey a) (region a) (language a) (conn a)
    (isConnected a) (isListening a) (isShuttingDown a) (stream a) v
    (onRecognized a) (onError a) (sampleRate a) (channels a)
    (framesPerBuffer a) (requestId a) (connectionId a).

Definition with_callbacks (rec err : bool) (a : Service) : Service :=
  mkService (subscriptionKey a) (region a) (language a) (conn a)
    (isConnected a) (isListening a) (isShuttingDown a) (stream a)
    (audioBuffer a) rec err (sampleRate a) (channels a)
    (framesPerBuffer a) (requestId a) (connectionId a).

Definition with_connectionId (v : string) (a : Service) : Service :=
  mkService (subscriptionKey a) (region a) (language a) (conn a)
    (isConnected a) (isListening a) (isShuttingDown a) (stream a)
    (audioBuffer a) (onRecognized a) (onError a) (sampleRate a) (channels a)
    (framesPerBuffer a) (requestId a) v.

(** ** Effects *)

Inductive Flag : Type := FConnected | FListening | FShuttingDown.

Inductive Task : Type := RecvTask | FlushTask.

(** What a method does to the outside world, in order.  Writes to the
    three flags are recorded too: the other tasks read them, so the moment
    a flag changes relative to the network and device calls is part of the
    behaviour.  Log lines are not effects. *)
Inductive Event : Type :=
| EvDial (host : string)
| EvWriteText (c : Conn) (msg : string)
| EvWriteBinary (c : Conn) (msg : list Z)
| EvConnClose (c : Conn)
| EvStreamOpen (s : Stream)
| EvStreamStart (s : Stream)
| EvStreamStop (s : Stream)
| EvStreamClose (s : Stream)
| EvRecognized (text : string)
| EvError (e : error)
| EvSet (f : Flag) (v : bool)
| EvGo (t : Task).

(** What the outside world answers during one method call. *)
Record Env : Type := mkEnv {
  now : string;
  dialResult : result Conn;
  writeResult : option error;
  openResult : result Stream;
  startResult : option error;
  freshId : string
}.

Inductive panic : Type := NilDereference | DivideByZero.

Inductive outcome (A : Type) : Type :=
| Done (x : A)
| Panic (p : panic).
Arguments Done {A} x.
Arguments Panic {A} p.

(** The monad of the methods: the receiver's state, the trace and a
    possible run-time panic. *)
Definition M (A : Type) : Type := Service -> outcome (A * Service * list Event).

Definition ret {A : Type} (x : A) : M A := fun a => Done (x, a, []).

Definition bind {A B : Type} (m : M A) (k : A -> M B) : M B :=
  fun a =>
    match m a with
    | Panic p => Panic p
    | Done (x, a1, t1) =>
        match k x a1 with
        | Panic p => Panic p
        | Done (y, a2, t2) => Done (y, a2, (t1 ++ t2)%list)
        end
    end.

Definition get : M Service := fun a => Done (a, a, []).
Definition modify (f : Service -> Service) : M unit := fun a => Done (tt, f a, []).
Definition emit (e : Event) : M unit := fun a => Done (tt, a, [e]).
Definition throw {A : Type} (p : panic) : M A := fun _ => Panic p.

Declare Scope monad_scope.
Delimit Scope monad_scope with monad.
Notation "x <- m ;; k" := (bind m (fun x => k))
  (at level 61, m at next level, right associativity) : monad_scope.
Notation "m ;; k" := (bind m (fun _ => k))
  (at level 61, right associativity) : monad_scope.
Local Open Scope monad_scope.

Definition set_flag (f : Flag) (v : bool) : M unit :=
  modify (match f with
          | FConnected => with_isConnected v
          | FListening => with_isListening v
          | FShuttingDown => with_isShuttingDown v
          end) ;;
  emit (EvSet f v).

(** ** The methods of [AzureWebSocketSpeechService] *)

(** [NewAzureWebSocketSpeechService]; [id] is what [generateRequestId]
    returned. *)
Definition NewAzureWebSocketSpeechService
    (key reg lang id : string) : Service :=
  mkService key reg lang None false false false None [] false false
    SampleRate Channels FramesPerBuffer id EmptyString.

Definition SetCallbacks (rec err : bool) : M unit := modify (with_callbacks rec err).

(** [a.conn.WriteMessage(messageType, data)]: a nil [a.conn] is a nil
    pointer dereference. *)
Definition WriteMessage (env : Env) (ev : Conn -> Event) : M (option error) :=
  a <- get ;;
  match conn a with
  | None => throw NilDereference
  | Some c => emit (ev c) ;; ret (writeResult env)
  end.

(** [json.Marshal(config)] for the fixed [SpeechConfigMessage] that
    [sendSpeechConfig] fills in. *)
Definition configJSON : string :=
  let k (s : string) := dquote ++ s ++ dquote in
  "{" ++ k "context" ++ ":{"
    ++ k "system" ++ ":{" ++ k "version" ++ ":" ++ k "1.0.0" ++ "},"
    ++ k "os" ++ ":{" ++ k "platform" ++ ":" ++ k "Windows" ++ ","
                     ++ k "name" ++ ":" ++ k "Windows" ++ ","
                     ++ k "version" ++ ":" ++ k "10.0" ++ "},"
    ++ k "device" ++ ":{" ++ k "manufacturer" ++ ":" ++ k "GoApp" ++ ","
                         ++ k "model" ++ ":" ++ k "VoiceAssistant" ++ ","
                         ++ k "version" ++ ":" ++ k "1.0" ++ "}}}".

(** The text frame [sendSpeechConfig] formats: headers, a blank line and
    the JSON body. *)
Definition speechConfigMessage (reqId ts : string) : string :=
  "Path: speech.config" ++ CRLF
  ++ "Content-Type: application/json; charset=utf-8" ++ CRLF
  ++ "X-RequestId: " ++ reqId ++ CRLF
  ++ "X-Timestamp: " ++ ts ++ CRLF ++ CRLF
  ++ configJSON.

Definition sendSpeechConfig (env : Env) : M (option error) :=
  a <- get ;;
  let message := speechConfigMessage (requestId a) (now env) in
  WriteMessage env (fun c => EvWriteText c message).

Definition connectWebSocket (env : Env) : M (option error) :=
  a <- get ;;
  emit (EvDial (region a ++ ".stt.speech.microsoft.com")) ;;
  match dialResult env with
  | Err e => ret (Some (Errorf "WebSocket dial failed: %v" e))
  | Ok c =>
      modify (with_conn (Some c)) ;;
      set_flag FConnected true ;;
      modify (with_connectionId (freshId env)) ;;
      sendSpeechConfig env
  end.

Definition cleanup : M (option error) :=
  a <- get ;;
  match stream a with
  | Some s =>
      emit (EvStreamStop s) ;;
      emit (EvStreamClose s) ;;
      modify (with_stream None) ;;
      ret None
  | None => ret None
  end.

Definition disconnectWebSocket : M unit :=
  a <- get ;;
  match conn a with
  | Some c => emit (EvConnClose c) ;; modify (with_conn None)
  | None => ret tt
  end ;;
  set_flag FConnected false.

Definition startAudioCapture (env : Env) : M (option error) :=
  modify (with_audioBuffer []) ;;
  match openResult env with
  | Err e => ret (Some (Errorf "failed to open audio stream: %v" e))
  | Ok s =>
      emit (EvStreamOpen s) ;;
      modify (with_stream (Some s)) ;;
      emit (EvStreamStart s) ;;
      match startResult env with
      | Some e =>
          _ <- cleanup ;;
          ret (Some (Errorf "failed to start audio stream: %v" e))
      | None => ret None
      end
  end.

Definition StartContinuousRecognition (env : Env) : M (option error) :=
  a <- get ;;
  if isListening a then ret None
  else
    err <- connectWebSocket env ;;
    match err with
    | Some e => ret (Some (Errorf "failed to connect to WebSocket: %v" e))
    | None =>
        err <- startAudioCapture env ;;
        match err with
        | Some e =>
            disconnectWebSocket ;;
            ret (Some (Errorf "failed to start audio capture: %v" e))
        | None =>
            set_flag FListening true ;;
            emit (EvGo RecvTask) ;;
            emit (EvGo FlushTask) ;;
            ret None
        end
    end.

(** The sum of absolute sample values that [processAudio] accumulates in
    an [int64]; the negation [-sample] is taken in [int16]. *)
Definition amplitudeSum (input : list Z) : Z :=
  fold_left
    (fun sum sample =>
       if sample <? 0
       then Wire.int64 (sum + Wire.int16 (- sample))
       else Wire.int64 (sum + sample))
    input 0.

(** [sum / int64(len(in))]: Go's integer division truncates towards zero
    and panics on a zero divisor. *)
Definition avgAmplitude (input : list Z) : M Z :=
  if Wire.len input =? 0 then throw DivideByZero
  else ret (Z.quot (amplitudeSum input) (Wire.len input)).

Definition processAudio (input : list Z) : M unit :=
  a <- get ;;
  if negb (isListening a) || negb (isConnected a) then ret tt
  else
    modify (with_audioBuffer (audioBuffer a ++ input)%list) ;;
    _ <- avgAmplitude input ;;
    ret tt.

(** The header block of an audio frame, as both [sendAudioChunk] and
    [StopContinuousRecognition] format it. *)
Definition audioHeaders (reqId ts : string) : string :=
  "path:audio" ++ CRLF
  ++ "x-requestid:" ++ reqId ++ CRLF
  ++ "x-timestamp:" ++ ts ++ CRLF ++ CRLF.

(** The 16-bit little-endian PCM payload. *)
Definition audioBytes (audioData : list Z) : list Z :=
  flat_map (fun sample => Wire.LittleEndian_PutUint16 (Wire.uint16 sample)) audioData.

(** The binary frame [sendAudioChunk] builds:
    [2-byte big-endian header length][header][audio data]. *)
Definition audioMessage (reqId ts : string) (audioData : list Z) : list Z :=
  let headerBytes := Wire.bytes_of_string (audioHeaders reqId ts) in
  let headerLength := Wire.uint16 (Wire.len headerBytes) in
  (Wire.BigEndian_PutUint16 headerLength ++ headerBytes ++ audioBytes audioData)%list.

Definition sendAudioChunk (env : Env) (audioData : list Z) : M (option error) :=
  if Wire.len audioData =? 0 then ret None
  else
    a <- get ;;
    let message := audioMessage (requestId a) (now env) audioData in
    WriteMessage env (fun c => EvWriteBinary c message).

(** The end-of-stream frame [StopContinuousRecognition] builds: header
    only, no audio data. *)
Definition endOfStreamMessage (reqId ts : string) : list Z :=
  let headerBytes := Wire.bytes_of_string (audioHeaders reqId ts) in
  let headerLength := Wire.uint16 (Wire.len headerBytes) in
  (Wire.BigEndian_PutUint16 headerLength ++ headerBytes)%list.

Definition StopContinuousRecognition (env : Env) : M (option error) :=
  a <- get ;;
  if negb (isListening a) then ret None
  else
    set_flag FShuttingDown true ;;
    match isConnected a, conn a with
    | true, Some c =>
        emit (EvWriteBinary c (endOfStreamMessage (requestId a) (now env)))
    | _, _ => ret tt
    end ;;
    _ <- cleanup ;;
    disconnectWebSocket ;;
    set_flag FListening false ;;
    set_flag FShuttingDown false ;;
    ret None.

(** [TestConnection]: connect, send the configuration frame, close. *)
Definition TestConnection (env : Env) : M (option error) :=
  err <- connectWebSocket env ;;
  match err with
  | Some e => ret (Some (Errorf "connection test failed: %v" e))
  | None => disconnectWebSocket ;; ret None
  end.

(** [Close].  Its last call, [portaudio.Terminate()], shuts the audio
    library down; it does not touch the service and has no event here. *)
Definition Close (env : Env) : M unit :=
  a <- get ;;
  (if isListening a then _ <- StopContinuousRecognition env ;; ret tt else ret tt) ;;
  disconnectWebSocket.

(** What one pass through a task's loop decides. *)
Inductive LoopCtl : Type := Continue | Return.

(** [handleAudioStreaming], the [<-ticker.C] case of one pass through its
    loop. *)
Definition handleAudioStreaming_tick (env : Env) : M LoopCtl :=
  a <- get ;;
  if negb (isListening a) || negb (isConnected a) then ret Return
  else if 0 <? Wire.len (audioBuffer a) then
    err <- sendAudioChunk env (audioBuffer a) ;;
    match err with
    | Some e =>
        (if onError a then emit (EvError e) else ret tt) ;;
        ret Return
    | None => modify (with_audioBuffer []) ;; ret Continue
    end
  else ret Continue.

(** [handleAudioStreaming], the [<-maxDuration.C] case. *)
Definition handleAudioStreaming_timeout (env : Env) : M LoopCtl :=
  _ <- StopContinuousRecognition env ;;
  ret Return.

(** ** The reply demultiplexer and the receive loop *)

Section Demux.

(** [json.Unmarshal(body, &result)] into a zero [SpeechResultMessage]:
    the decoded record, or [None] when it returns an error.  The decoder is
    the standard library's; the engine is stated over any decoder. *)
Variable json_Unmarshal : string -> option SpeechResultMessage.

Definition handleTextMessage (data : string) : M unit :=
  match Bytes.Split data (CRLF ++ CRLF) with
  | headers :: body :: _ =>
      if Bytes.Contains headers "Path:speech.phrase" then
        match json_Unmarshal body with
        | None => ret tt
        | Some result =>
            if String.eqb (RecognitionStatus result) "Success" then
              let finalText :=
                if negb (String.eqb (DisplayText result) EmptyString)
                then DisplayText result
                else match NBest result with
                     | first :: _ =>
                         if negb (String.eqb (Display first) EmptyString)
                         then Display first
                         else EmptyString
                     | [] => EmptyString
                     end in
              if negb (String.eqb finalText EmptyString) then
                a <- get ;;
                if onRecognized a then emit (EvRecognized finalText)
                else ret tt
              else ret tt
            else ret tt
        end
      else ret tt
  | _ => ret tt
  end.

(** What [a.conn.ReadMessage()] returned. *)
Inductive ReadResult : Type :=
| ReadFailed (err : error)
| ReadMessage (messageType : Z) (data : string).

(** [handleWebSocketMessages], one pass through its loop: the loop
    condition [a.isConnected], the blocking read, and the dispatch. *)
Definition handleWebSocketMessages_pass (r : ReadResult) : M LoopCtl :=
  a <- get ;;
  if negb (isConnected a) then ret Return
  else
    match conn a with
    | None => throw NilDereference
    | Some _ =>
        match r with
        | ReadFailed err =>
            (if negb (isShuttingDown a)
                && negb (IsCloseError err [CloseNormalClosure; CloseGoingAway])
             then (if onError a then emit (EvError err) else ret tt)
             else ret tt) ;;
            ret Return
        | ReadMessage messageType data =>
            (if messageType =? TextMessage then handleTextMessage data
             else ret tt) ;;
            ret Continue
        end
    end.

End Demux.

(** ** The session as the scheduler sees it

    The caller's thread, the audio callback, the flush task and the receive
    task take turns; each turn is one call or one pass through a loop. *)

Record System : Type := mkSystem {
  svc : Service;
  recvTasks : nat;
  flushTasks : nat
}.

Inductive Action : Type :=
| CallStart (env : Env)
| CallStop (env : Env)
| AudioCallback (input : list Z)
| FlushTick (env : Env)
| WatchdogTimer (env : Env)
| Receive (r : ReadResult).

Definition is_go (t : Task) (e : Event) : bool :=
  match e, t with
  | EvGo RecvTask, RecvTask => true
  | EvGo FlushTask, FlushTask => true
  | _, _ => false
  end.

(** The goroutines a trace starts. *)
Definition started (t : Task) (tr : list Event) : nat :=
  List.length (filter (is_go t) tr).

Definition after_pass (ctl : LoopCtl) (n : nat) : nat :=
  match ctl with
  | Continue => n
  | Return => Nat.pred n
  end.

Definition step (unmarshal : string -> option SpeechResultMessage)
    (act : Action) (sys : System) : outcome (System * list Event) :=
  match act with
  | CallStart env =>
      match StartContinuousRecognition env (svc sys) with
      | Panic p => Panic p
      | Done (_, a, tr) =>
          Done (mkSystem a (started RecvTask tr + recvTasks sys)%nat
                           (started FlushTask tr + flushTasks sys)%nat, tr)
      end
  | CallStop env =>
      match StopContinuousRecognition env (svc sys) with
      | Panic p => Panic p
      | Done (_, a, tr) => Done (mkSystem a (recvTasks sys) (flushTasks sys), tr)
      end
  | AudioCallback input =>
      match stream (svc sys) with
      | None => Done (sys, [])
      | Some _ =>
          match processAudio input (svc sys) with
          | Panic p => Panic p
          | Done (_, a, tr) => Done (mkSystem a (recvTasks sys) (flushTasks sys), tr)
          end
      end
  | FlushTick env =>
      match flushTasks sys with
      | O => Done (sys, [])
      | S _ =>
          match handleAudioStreaming_tick env (svc sys) with
          | Panic p => Panic p
          | Done (ctl, a, tr) =>
              Done (mkSystem a (recvTasks sys) (after_pass ctl (flushTasks sys)), tr)
          end
      end
  | WatchdogTimer env =>
      match flushTasks sys with
      | O => Done (sys, [])
      | S _ =>
          match handleAudioStreaming_timeout env (svc sys) with
          | Panic p => Panic p
          | Done (ctl, a, tr) =>
              Done (mkSystem a (recvTasks sys) (after_pass ctl (flushTasks sys)), tr)
          end
      end
  | Receive r =>
      match recvTasks sys with
      | O => Done (sys, [])
      | S _ =>
          match handleWebSocketMessages_pass unmarshal r (svc sys) with
          | Panic p => Panic p
          | Done (ctl, a, tr) =>
              Done (mkSystem a (after_pass ctl (recvTasks sys)) (flushTasks sys), tr)
          end
      end
  end.

Fixpoint run (unmarshal : string -> option SpeechResultMessage)
    (acts : list Action) (sys : System) : outcome (System * list Event) :=
  match acts with
  | [] => Done (sys, [])
  | act :: rest =>
      match step unmarshal act sys with
      | Panic p => Panic p
      | Done (sys1, t1) =>
          match run unmarshal rest sys1 with
          | Panic p => Panic p
          | Done (sys2, t2) => Done (sys2, (t1 ++ t2)%list)
          end
      end
  end.

(** ** Reading a trace *)

(** The binary frames a trace sends, in order. *)
Fixpoint binaryFrames (tr : list Event) : list (list Z) :=
  match tr with
  | [] => []
  | EvWriteBinary _ msg :: rest => msg :: binaryFrames rest
  | _ :: rest => binaryFrames rest
  end.

(** The part of a trace before the first close of a connection, and
    whether a connection is closed at all. *)
Fixpoint beforeClose (tr : list Event) : list Event :=
  match tr with
  | [] => []
  | EvConnClose _ :: _ => []
  | e :: rest => e :: beforeClose rest
  end.

Fixpoint closes (tr : list Event) : nat :=
  match tr with
  | [] => O
  | EvConnClose _ :: rest => S (closes rest)
  | _ :: rest => closes rest
  end.

(** How often a trace invokes each callback. *)
Fixpoint recognizedCalls (tr : list Event) : list string :=
  match tr with
  | [] => []
  | EvRecognized text :: rest => text :: recognizedCalls rest
  | _ :: rest => recognizedCalls rest
  end.

Fixpoint errorCalls (tr : list Event) : list error :=
  match tr with
  | [] => []
  | EvError e :: rest => e :: errorCalls rest
  | _ :: rest => errorCalls rest
  end.

(** The trace of a run that did not panic. *)
Definition traceOf {A : Type} (o : outcome (A * Service * list Event)) : list Event :=
  match o with
  | Done (_, _, tr) => tr
  | Panic _ => []
  end.

(** Taking an inbound binary frame apart again: the header length its
    prefix announces, the header block and the payload. *)
Definition frameHeaderLength (msg : list Z) : option Z :=
  Wire.BigEndian_Uint16 (firstn 2 msg).

Definition framePayload (msg : list Z) : option (list Z) :=
  match frameHeaderLength msg with
  | Some n => Some (skipn (2 + Z.to_nat n) msg)
  | None => None
  end.

(** The engine at rest: not listening, not connected, no connection
    handle. *)
Definition Idle (a : Service) : Prop :=
  isListening a = false /\ isConnected a = false /\ conn a = None.

(** ** The states a session passes through *)

(** The state once the dial has succeeded. *)
Definition connected (c : Conn) (id : string) (a : Service) : Service :=
  with_connectionId id (with_isConnected true (with_conn (Some c) a)).

(** The state once the connection has been closed again. *)
Definition disconnected (a : Service) : Service :=
  with_isConnected false (with_conn None a).

(** The host [connectWebSocket] dials. *)
Definition dialHost (a : Service) : string :=
  region a ++ ".stt.speech.microsoft.com".

(** The state of a session that has just started. *)
Definition listening (c : Conn) (s : Stream) (id : string) (a : Service) : Service :=
  with_isListening true
    (with_stream (Some s) (with_audioBuffer [] (connected c id a))).

(** The state once a stop has torn the session down. *)
Definition stopped (a : Service) : Service :=
  with_isShuttingDown false
    (with_isListening false (disconnected (with_stream None a))).

(** ** The effects a teardown is expected to perform

    Each piece is read off the state the stop starts from. *)

(** The end-of-audio frame, sent when the connection is still open: the
    connected flag is set and the handle is not nil. *)
Definition endOfAudio (env : Env) (a : Service) : list Event :=
  match isConnected a, conn a with
  | true, Some c => [EvWriteBinary c (endOfStreamMessage (requestId a) (now env))]
  | _, _ => []
  end.

(** Stopping and closing the audio device, when one is open. *)
Definition releaseDevice (a : Service) : list Event :=
  match stream a with
  | Some s => [EvStreamStop s; EvStreamClose s]
  | None => []
  end.

(** Closing the connection handle, when there is one. *)
Definition closeConnection (a : Service) : list Event :=
  match conn a with
  | Some c => [EvConnClose c]
  | None => []
  end.

(** The error callback, when one is registered. *)
Definition reportError (a : Service) (e : error) : list Event :=
  if onError a then [EvError e] else [].

(** ** The end-to-end scenario *)

(** The audio callbacks between two flush ticks: each delivers a
    non-empty frame, and together they leave [n] samples in the buffer. *)
Definition buffered (feed : list (list Z)) (n : nat) : Prop :=
  Forall (fun chunk => chunk <> []) feed /\ List.length (List.concat feed) = n.

(** Start, three rounds of audio callbacks each followed by a flush tick,
    then stop. *)
Definition session (envStart e1 e2 e3 envStop : Env)
    (feed1 feed2 feed3 : list (list Z)) : list Action :=
  (CallStart envStart
   :: List.map AudioCallback feed1 ++ FlushTick e1
   :: List.map AudioCallback feed2 ++ FlushTick e2
   :: List.map AudioCallback feed3 ++ FlushTick e3
   :: [CallStop envStop])%list.

(** ** Inbound frames *)

(** The header block [handleTextMessage] looks at: the first piece of a
    frame that has at least one blank-line separator. *)
Definition headerBlock (data : string) : option string :=
  match Bytes.Split data (CRLF ++ CRLF) with
  | headers :: _ :: _ => Some headers
  | _ => None
  end.

(** Following the specification's words, not the code: the header block
    is a sequence of [key:value] lines, and the frame's path field is the
    value on the first line whose key is [Path].  The code never extracts
    this field; it is defined here to be compared with the test the code
    makes. *)
Fixpoint spec_lookupPath (lines : list string) : option string :=
  match lines with
  | [] => None
  | line :: rest =>
      if prefix "Path:" line
      then Some (substring 5 (String.length line - 5) line)
      else spec_lookupPath rest
  end.

Definition spec_pathField (headers : string) : option string :=
  spec_lookupPath (Bytes.Split headers CRLF).

(** Three JSON bodies of final-phrase frames, and a decoder that returns
    what [json.Unmarshal] returns on each of them and an error on every
    other input.  They serve as concrete inputs only; every general
    statement below is over an arbitrary decoder. *)
Definition jsonField (key value : string) : string :=
  dquote ++ key ++ dquote ++ ":" ++ dquote ++ value ++ dquote.

Definition bodyDisplayText : string :=
  "{" ++ jsonField "RecognitionStatus" "Success" ++ ","
      ++ jsonField "DisplayText" "Hello world." ++ "}".

Definition bodyNBestOnly : string :=
  "{" ++ jsonField "RecognitionStatus" "Success" ++ ","
      ++ dquote ++ "NBest" ++ dquote ++ ":[{" ++ jsonField "Display" "Hello there." ++ "}]}".

Definition bodyNoMatch : string :=
  "{" ++ jsonField "RecognitionStatus" "NoMatch" ++ "}".

Definition sampleUnmarshal (body : string) : option SpeechResultMessage :=
  if String.eqb body bodyDisplayText then
    Some (mkResult EmptyString EmptyString "Success" "Hello world."
            EmptyString 0 0 [])
  else if String.eqb body bodyNBestOnly then
    Some (mkResult EmptyString EmptyString "Success" EmptyString
            EmptyString 0 0 [mkNBest "Hello there."])
  else if String.eqb body bodyNoMatch then
    Some (mkResult EmptyString EmptyString "NoMatch" EmptyString
            EmptyString 0 0 [])
  else None.

(** A header block that a blank line appended to it ends, and not
    sooner: the separator does not begin at any of its own characters. *)
Fixpoint separatorFree (sep h : string) : bool :=
  match h with
  | EmptyString => true
  | String _ h' => negb (prefix sep (h ++ sep)) && separatorFree sep h'
  end.

(** A frame with the given header lines and body. *)
Definition textFrame (headers body : string) : string :=
  headers ++ CRLF ++ CRLF ++ body.

(** A session in progress, with both callbacks registered. *)
Definition sampleSession : Service :=
  with_callbacks true true
    (listening 7%nat 3%nat "c0ffee00-0000-4000-8000-000000000002"
       (NewAzureWebSocketSpeechService "key" "westeurope" "en-US"
          "c0ffee00-0000-4000-8000-000000000001")).

(** ** Concrete inputs *)

Definition sampleTime : string := "2026-01-01T09:30:00.000Z".

(** A service as [NewAzureWebSocketSpeechService] returns it. *)
Definition idleService : Service :=
  NewAzureWebSocketSpeechService "key" "westeurope" "en-US"
    "c0ffee00-0000-4000-8000-000000000001".

(** An outside world in which every call succeeds. *)
Definition envOk : Env :=
  mkEnv sampleTime (Ok 7%nat) None (Ok 3%nat) None
    "c0ffee00-0000-4000-8000-000000000002".

(** An outside world in which the dial succeeds and every write on the
    connection fails. *)
Definition envWriteFails : Env :=
  mkEnv sampleTime (Ok 7%nat) (Some (ErrorString "write: broken pipe"))
    (Ok 3%nat) None "c0ffee00-0000-4000-8000-000000000002".

(** 1,600 samples of silence, delivered by two audio callbacks. *)
Definition silence : list (list Z) := [List.repeat 0 1024; List.repeat 0 576].

(** ** The two sentences of the specification that the code does not
    satisfy as they stand, stated as written *)

(** "Given any other path value, the demultiplexer never invokes the
    recognized-text callback." *)
Definition spec_other_path_claim : Prop :=
  forall (unmarshal : string -> option SpeechResultMessage)
         (data headers : string) (a : Service),
    headerBlock data = Some headers ->
    spec_pathField headers <> Some SpeechPhraseType ->
    recognizedCalls (traceOf (handleTextMessage unmarshal data a)) = [].


(** ** Evaluating a method *)

Ltac run_method :=
  unfold StartContinuousRecognition, StopContinuousRecognition,
    connectWebSocket, sendSpeechConfig, startAudioCapture, cleanup,
    disconnectWebSocket, WriteMessage, sendAudioChunk,
    handleAudioStreaming_tick, handleAudioStreaming_timeout,
    set_flag, bind, get, modify, emit, ret, throw;
  simpl.

(** ** Request identifiers: [generateRequestId] *)

(** [fmt]'s [%x] of a byte slice: two lower-case hexadecimal digits per
    byte, the high nibble first. *)
Definition hexDigits : string := "0123456789abcdef".

Definition hexDigit (n : Z) : ascii :=
  match String.get (Z.to_nat n) hexDigits with
  | Some c => c
  | None => "0"%char
  end.

Definition hexByte (b : Z) : string :=
  String (hexDigit (Z.shiftr b 4)) (String (hexDigit (Z.land b 15)) EmptyString).

Fixpoint hex (bs : list Z) : string :=
  match bs with
  | [] => EmptyString
  | b :: rest => hexByte b ++ hex rest
  end.

(** [b[i] = v] and [b[lo:hi]] on a slice long enough. *)
Definition setAt (i : nat) (v : Z) (b : list Z) : list Z :=
  (firstn i b ++ v :: skipn (S i) b)%list.

Definition slice (lo hi : nat) (b : list Z) : list Z :=
  firstn (hi - lo) (skipn lo b).

(** [generateRequestId]; [b] is the 16-byte buffer as [rand.Read] left
    it. *)
Definition generateRequestId (b : list Z) : string :=
  let b := setAt 6 (Z.lor (Z.land (nth 6 b 0) 15) 64) b in
  let b := setAt 8 (Z.lor (Z.land (nth 8 b 0) 63) 128) b in
  hex (slice 0 4 b) ++ "-" ++ hex (slice 4 6 b) ++ "-" ++ hex (slice 6 8 b)
  ++ "-" ++ hex (slice 8 10 b) ++ "-" ++ hex (slice 10 16 b).

Definition isLowerHex (c : ascii) : bool :=
  existsb (Ascii.eqb c) (list_ascii_of_string hexDigits).

(** ** Reading an audio frame back *)

(** [binary.LittleEndian.Uint16(b)]: [uint16(b[0]) | uint16(b[1])<<8]. *)
Definition LittleEndian_Uint16 (b : list Z) : option Z :=
  match b with
  | b0 :: b1 :: _ =>
      Some (Z.lor (Wire.uint16 b0) (Wire.uint16 (Z.shiftl (Wire.uint16 b1) 8)))
  | _ => None
  end.

(** The samples of a 16-bit little-endian PCM payload: each pair of bytes
    read with [LittleEndian_Uint16] and converted with [int16]. *)
Fixpoint decodePCM (payload : list Z) : list Z :=
  match payload with
  | b0 :: b1 :: rest =>
      match LittleEndian_Uint16 [b0; b1] with
      | Some u => Wire.int16 u :: decodePCM rest
      | None => []
      end
  | _ => []
  end.

(** The header block of a binary frame, by the length its prefix
    announces. *)
Definition frameHeader (msg : list Z) : option (list Z) :=
  match frameHeaderLength msg with
  | Some n => Some (firstn (Z.to_nat n) (skipn 2 msg))
  | None => None
  end.

(** A sample that fits Go's [int16]. *)
Definition isInt16 (x : Z) : Prop := -32768 <= x <= 32767.

(** ** Every call a program can make on the service *)

Inductive Call : Type :=
| Engine (act : Action)
| CallTestConnection (env : Env)
| CallClose (env : Env)
| CallSetCallbacks (rec err : bool).

(** A method run on the service of a system; the tasks are untouched. *)
Definition onService {A : Type} (m : M A) (sys : System)
  : outcome (System * list Event) :=
  match m (svc sys) with
  | Panic p => Panic p
  | Done (_, a, tr) => Done (mkSystem a (recvTasks sys) (flushTasks sys), tr)
  end.

Definition stepCall (unmarshal : string -> option SpeechResultMessage)
    (call : Call) (sys : System) : outcome (System * list Event) :=
  match call with
  | Engine act => step unmarshal act sys
  | CallTestConnection env => onService (TestConnection env) sys
  | CallClose env => onService (Close env) sys
  | CallSetCallbacks rec err => onService (SetCallbacks rec err) sys
  end.

Fixpoint runCalls (unmarshal : string -> option SpeechResultMessage)
    (calls : list Call) (sys : System) : outcome (System * list Event) :=
  match calls with
  | [] => Done (sys, [])
  | call :: rest =>
      match stepCall unmarshal call sys with
      | Panic p => Panic p
      | Done (sys1, t1) =>
          match runCalls unmarshal rest sys1 with
          | Panic p => Panic p
          | Done (sys2, t2) => Done (sys2, (t1 ++ t2)%list)
          end
      end
  end.

(** An audio callback that delivers no sample. *)
Definition emptyAudio (call : Call) : Prop := call = Engine (AudioCallback []).

(** What holds of the service between any two calls: a set connected flag
    comes with a connection handle, and the audio device is open exactly
    while the service is listening. *)
Definition wellFormed (a : Service) : Prop :=
  (isConnected a = true -> conn a <> None) /\
  (isListening a = true <-> stream a <> None).

(** The fields no method assigns. *)
Definition sameIdentity (a a' : Service) : Prop :=
  requestId a' = requestId a /\
  subscriptionKey a' = subscriptionKey a /\
  region a' = region a /\
  language a' = language a /\
  sampleRate a' = sampleRate a /\
  channels a' = channels a /\
  framesPerBuffer a' = framesPerBuffer a.

(** The connections a trace opens: one per dial that succeeded, which is a
    dial followed by the write to the connected flag. *)
Fixpoint connectionsOpened (tr : list Event) : nat :=
  match tr with
  | EvDial _ :: EvSet FConnected true :: rest => S (connectionsOpened rest)
  | _ :: rest => connectionsOpened rest
  | [] => O
  end.

(** The dials a trace makes. *)
Fixpoint dials (tr : list Event) : nat :=
  match tr with
  | EvDial _ :: rest => S (dials rest)
  | _ :: rest => dials rest
  | [] => O
  end.

(** A method that returns, and keeps the service well formed and its
    identity. *)
Definition keepsWellFormed {A : Type} (a : Service)
    (o : outcome (A * Service * list Event)) : Prop :=
  match o with
  | Done (_, a', _) => wellFormed a' /\ sameIdentity a a'
  | Panic _ => False
  end.

(** The actions of the audio side of a session: audio callbacks that
    deliver samples, flush ticks and the watchdog timer. *)
Definition audioSide (act : Action) : Prop :=
  match act with
  | AudioCallback input => input <> []
  | FlushTick _ | WatchdogTimer _ => True
  | _ => False
  end.

(** The samples a sequence of actions delivers, in order. *)
Fixpoint samplesOf (acts : list Action) : list Z :=
  match acts with
  | [] => []
  | AudioCallback input :: rest => (input ++ samplesOf rest)%list
  | _ :: rest => samplesOf rest
  end.

(** A system around a service as [NewAzureWebSocketSpeechService] returns
    it, with no task running. *)
Definition newSystem (key reg lang id : string) : System :=
  mkSystem (NewAzureWebSocketSpeechService key reg lang id) 0 0.

(** ** The program around the engine: package [main]

    The globals of the program, and the handlers it registers with the
    hotkey listener and with the engine. *)

Module Main.

(** The texts handed to [beeep.Notify]. *)
Inductive Notice : Type :=
| NotConfigured      (* "Azure Speech Services not configured" *)
| Stopping           (* "Stopping recognition..." *)
| StopFailed         (* "Failed to stop recognition" *)
| StreamingLive      (* "Streaming live... Press F12 to stop." *)
| StartFailed        (* "Failed to start recognition" *)
| RecognitionError.  (* "Speech recognition error" *)

Inductive AppEvent : Type :=
| Notify (n : Notice)
| OfEngine (e : Event).

(** [azureSpeechWebSocket] (nil until the service is built),
    [currentStatus] and [isRecording]. *)
Record App : Type := mkApp {
  azureSpeechWebSocket : option Service;
  currentStatus : string;
  isRecording : bool
}.

Definition updateStatus (status : string) (app : App) : App :=
  mkApp (azureSpeechWebSocket app) status (isRecording app).

Definition setRecording (v : bool) (app : App) : App :=
  mkApp (azureSpeechWebSocket app) (currentStatus app) v.

Definition setService (a : Service) (app : App) : App :=
  mkApp (Some a) (currentStatus app) (isRecording app).

(** The start that [onF12Pressed] makes, and what it does with the
    result. *)
Definition startRecognition (env : Env) (app : App) (a : Service)
  : outcome (App * list AppEvent) :=
  match StartContinuousRecognition env a with
  | Panic p => Panic p
  | Done (Some _, a', tr) =>
      Done (updateStatus "Error" (setService a' app),
            (List.map OfEngine tr ++ [Notify StartFailed])%list)
  | Done (None, a', tr) =>
      Done (setRecording true (setService a' app), List.map OfEngine tr)
  end.

(** [onF12Pressed].  [env1] is what the outside world answers during the
    call made in the branch, [env2] during the start that follows the
    branches. *)
Definition onF12Pressed (env1 env2 : Env) (app : App)
  : outcome (App * list AppEvent) :=
  match azureSpeechWebSocket app with
  | None => Done (app, [Notify NotConfigured])
  | Some a =>
      let branch :=
        if isRecording app then
          match StopContinuousRecognition env1 a with
          | Panic p => Panic p
          | Done (Some _, a', tr) =>
              Done (updateStatus "Error"
                      (setService a' (updateStatus "Processing" app)),
                    (Notify Stopping :: List.map OfEngine tr
                     ++ [Notify StopFailed])%list)
          | Done (None, a', tr) =>
              Done (updateStatus "Ready"
                      (setRecording false
                         (setService a' (updateStatus "Processing" app))),
                    Notify Stopping :: List.map OfEngine tr)
          end
        else
          match startRecognition env1 (updateStatus "Listening" app) a with
          | Panic p => Panic p
          | Done (app', tr) => Done (app', Notify StreamingLive :: tr)
          end in
      match branch with
      | Panic p => Panic p
      | Done (app1, tr1) =>
          match azureSpeechWebSocket app1 with
          | None => Done (app1, tr1)
          | Some a1 =>
              match startRecognition env2 app1 a1 with
              | Panic p => Panic p
              | Done (app2, tr2) => Done (app2, (tr1 ++ tr2)%list)
              end
          end
      end
  end.

(** [onSpeechError], the error callback registered with the engine. *)
Definition onSpeechError (err : error) (app : App) : App * list AppEvent :=
  (setRecording false (updateStatus "Error" app), [Notify RecognitionError]).

(** The engine's part of a program trace. *)
Fixpoint engineEvents (tr : list AppEvent) : list Event :=
  match tr with
  | [] => []
  | OfEngine e :: rest => e :: engineEvents rest
  | _ :: rest => engineEvents rest
  end.

Fixpoint notices (tr : list AppEvent) : list Notice :=
  match tr with
  | [] => []
  | Notify n :: rest => n :: notices rest
  | _ :: rest => notices rest
  end.

End Main.

(** ** The batch recorder: package [audio] *)

Module Audio.

(** Go's [int32(x)] conversion. *)
Definition int32 (x : Z) : Z := (x + 2147483648) mod 4294967296 - 2147483648.

(** The two helpers of [writeWAVHeader]; [>>] on a signed integer is the
    arithmetic shift, which [Z.shiftr] is. *)
Definition int32ToBytes (val : Z) : list Z :=
  [Wire.byte val; Wire.byte (Z.shiftr val 8);
   Wire.byte (Z.shiftr val 16); Wire.byte (Z.shiftr val 24)].

Definition int16ToBytes (val : Z) : list Z :=
  [Wire.byte val; Wire.byte (Z.shiftr val 8)].

(** The 44 bytes [writeWAVHeader(file, dataSize)] writes.  [dataSize] is a
    Go [int], 64 bits wide. *)
Definition writeWAVHeader (dataSize : Z) : list Z :=
  let fileSize := Wire.int64 (dataSize + 36) in
  (Wire.bytes_of_string "RIFF"
   ++ int32ToBytes (int32 fileSize)
   ++ Wire.bytes_of_string "WAVE"
   ++ Wire.bytes_of_string "fmt "
   ++ int32ToBytes 16
   ++ int16ToBytes 1
   ++ int16ToBytes (Wire.int16 Channels)
   ++ int32ToBytes (int32 SampleRate)
   ++ int32ToBytes (int32 (SampleRate * 2))
   ++ int16ToBytes 2
   ++ int16ToBytes 16
   ++ Wire.bytes_of_string "data"
   ++ int32ToBytes (int32 dataSize))%list.

(** What [Recorder.processAudio] writes to the file for one callback:
    [byte(sample)], [byte(sample >> 8)] per sample. *)
Definition processAudio (input : list Z) : list Z :=
  flat_map (fun sample => [Wire.byte sample; Wire.byte (Z.shiftr sample 8)]) input.

(** Writing [data] at the start of a file: the bytes it covers are
    replaced, the rest of the file stays. *)
Definition writeAtStart (data content : list Z) : list Z :=
  (data ++ skipn (List.length data) content)%list.

(** [finalizeWAVFile] on the content of the temporary file, when the file
    can be read and opened: the data size is the file size less the 44
    bytes of the header, and the header is written again over the first
    one. *)
Definition finalizeWAVFile (content : list Z) : list Z :=
  let dataSize := Wire.len content - 44 in
  writeAtStart (writeWAVHeader dataSize) content.

(** Reading a little-endian 32-bit field at an offset of a file. *)
Definition littleEndian32At (offset : nat) (content : list Z) : option Z :=
  match skipn offset content with
  | b0 :: b1 :: b2 :: b3 :: _ =>
      Some (b0 + 256 * b1 + 65536 * b2 + 16777216 * b3)
  | _ => None
  end.

End Audio.

(** * Properties *)

(** The frame builders are kept folded when a method is evaluated. *)
Arguments speechConfigMessage : simpl never.
Arguments audioMessage : simpl never.
Arguments endOfStreamMessage : simpl never.
Arguments audioHeaders : simpl never.
Arguments avgAmplitude : simpl never.

(** ** Arithmetic facts about the two-byte prefix *)

Lemma byte_range (x : Z) : 0 <= Wire.byte x < 256.
Proof. unfold Wire.byte. apply Z.mod_pos_bound. lia. Qed.

Lemma uint16_small (x : Z) : 0 <= x < 65536 -> Wire.uint16 x = x.
Proof. intros H. unfold Wire.uint16. apply Z.mod_small. exact H. Qed.

Lemma high_byte_spec (v : Z) :
  0 <= v < 65536 -> Wire.byte (Z.shiftr v 8) = v / 256.
Proof.
  intros H. unfold Wire.byte.
  rewrite Z.shiftr_div_pow2 by lia.
  change (2 ^ 8) with 256.
  apply Z.mod_small.
  split.
  - apply Z.div_pos; lia.
  - apply Z.div_lt_upper_bound; lia.
Qed.

Lemma lor_disjoint_bytes (lo hi : Z) :
  0 <= lo < 256 -> 0 <= hi ->
  Z.lor lo (Z.shiftl hi 8) = lo + 256 * hi.
Proof.
  intros Hlo Hhi.
  assert (Hland : Z.land lo (Z.shiftl hi 8) = 0).
  { apply Z.bits_inj'. intros n Hn.
    rewrite Z.land_spec, Z.bits_0.
    destruct (Z.ltb_spec n 8) as [Hlt | Hge].
    - rewrite Z.shiftl_spec_low by exact Hlt. apply andb_false_r.
    - assert (Hbit : Z.testbit lo n = false).
      { destruct (Z.eq_dec lo 0) as [-> | Hnz]; [apply Z.bits_0 |].
        apply Z.bits_above_log2; [lia |].
        apply Z.log2_lt_pow2; [lia |].
        apply Z.lt_le_trans with (2 ^ 8); [change (2 ^ 8) with 256; lia |].
        apply Z.pow_le_mono_r; lia. }
      rewrite Hbit. reflexivity. }
  rewrite <- Z.lxor_lor by exact Hland.
  rewrite <- Z.add_nocarry_lxor by exact Hland.
  rewrite Z.shiftl_mul_pow2 by lia.
  change (2 ^ 8) with 256. lia.
Qed.

Lemma BigEndian_roundtrip (v : Z) :
  0 <= v < 65536 ->
  Wire.BigEndian_Uint16 (Wire.BigEndian_PutUint16 v) = Some v.
Proof.
  intros H. unfold Wire.BigEndian_PutUint16, Wire.BigEndian_Uint16.
  rewrite high_byte_spec by exact H.
  assert (Hhi : 0 <= v / 256 < 256).
  { split; [apply Z.div_pos; lia | apply Z.div_lt_upper_bound; lia]. }
  pose proof (byte_range v) as Hlo.
  rewrite (uint16_small (Wire.byte v)) by lia.
  rewrite (uint16_small (v / 256)) by lia.
  rewrite Z.shiftl_mul_pow2 by lia. change (2 ^ 8) with 256.
  rewrite (uint16_small (v / 256 * 256)) by lia.
  replace (v / 256 * 256) with (Z.shiftl (v / 256) 8)
    by (rewrite Z.shiftl_mul_pow2 by lia; reflexivity).
  rewrite lor_disjoint_bytes by lia.
  unfold Wire.byte. f_equal.
  pose proof (Z.div_mod v 256). lia.
Qed.

(** The prefix of an audio frame announces the length of its header
    block. *)
Lemma audioMessage_header_length (reqId ts : string) (audioData : list Z) :
  Wire.len (Wire.bytes_of_string (audioHeaders reqId ts)) <= 65535 ->
  frameHeaderLength (audioMessage reqId ts audioData)
  = Some (Wire.len (Wire.bytes_of_string (audioHeaders reqId ts))).
Proof.
  intros Hlen. unfold frameHeaderLength, audioMessage.
  set (h := Wire.bytes_of_string (audioHeaders reqId ts)) in *.
  assert (Hpos : 0 <= Wire.len h) by (unfold Wire.len; lia).
  rewrite uint16_small by lia.
  change (firstn 2 (Wire.BigEndian_PutUint16 (Wire.len h) ++ h ++ audioBytes audioData)%list)
    with (Wire.BigEndian_PutUint16 (Wire.len h)).
  apply BigEndian_roundtrip. lia.
Qed.

(** C8. The two-byte big-endian header-length prefix round-trips: for
    every header block length [L] with [0 <= L <= 65535], decoding the
    prefix [sendAudioChunk] writes for [L] gives [L] back; in particular the
    prefix of a frame it builds decodes to the length of that frame's
    header block. *)
Theorem header_length_prefix_roundtrip :
  (forall L : Z,
      0 <= L <= 65535 ->
      Wire.BigEndian_Uint16 (Wire.BigEndian_PutUint16 (Wire.uint16 L)) = Some L) /\
  (forall (reqId ts : string) (audioData : list Z),
      Wire.len (Wire.bytes_of_string (audioHeaders reqId ts)) <= 65535 ->
      frameHeaderLength (audioMessage reqId ts audioData)
      = Some (Wire.len (Wire.bytes_of_string (audioHeaders reqId ts)))).
Proof.
  split.
  - intros L HL. rewrite uint16_small by lia. apply BigEndian_roundtrip. lia.
  - intros reqId ts audioData Hlen. apply audioMessage_header_length. exact Hlen.
Qed.

Lemma header_length_prefix_roundtrip_witness :
  Wire.BigEndian_Uint16 (Wire.BigEndian_PutUint16 (Wire.uint16 62)) = Some 62 /\
  frameHeaderLength (audioMessage "r" "t" [0; -1])
  = Some (Wire.len (Wire.bytes_of_string (audioHeaders "r" "t"))).
Proof.
  split.
  - apply (proj1 header_length_prefix_roundtrip 62). lia.
  - apply (proj2 header_length_prefix_roundtrip "r" "t" [0; -1]).
    vm_compute. discriminate.
Defined.

(** ** Start and stop outside their guard *)

Lemma start_while_listening (env : Env) (a : Service) :
  isListening a = true ->
  StartContinuousRecognition env a = Done (None, a, []).
Proof.
  intros H. unfold StartContinuousRecognition, bind, get.
  rewrite H. reflexivity.
Qed.

Lemma stop_while_not_listening (env : Env) (a : Service) :
  isListening a = false ->
  StopContinuousRecognition env a = Done (None, a, []).
Proof.
  intros H. unfold StopContinuousRecognition, bind, get.
  rewrite H. reflexivity.
Qed.

Lemma repeated_starts_while_listening
    (unmarshal : string -> option SpeechResultMessage)
    (envs : list Env) (sys : System) :
  isListening (svc sys) = true ->
  run unmarshal (List.map CallStart envs) sys = Done (sys, []).
Proof.
  intros H. induction envs as [| env envs IH]; simpl.
  - reflexivity.
  - rewrite (start_while_listening env (svc sys) H).
    change (mkSystem (svc sys) (started RecvTask [] + recvTasks sys)
                     (started FlushTask [] + flushTasks sys))
      with (mkSystem (svc sys) (recvTasks sys) (flushTasks sys)).
    replace (mkSystem (svc sys) (recvTasks sys) (flushTasks sys)) with sys
      by (destruct sys; reflexivity).
    rewrite IH. reflexivity.
Qed.

(** ** The audio callback *)

Lemma avgAmplitude_nonempty (input : list Z) (a : Service) :
  input <> [] ->
  avgAmplitude input a
  = Done (Z.quot (amplitudeSum input) (Wire.len input), a, []).
Proof.
  intros H. unfold avgAmplitude.
  destruct input as [| x xs]; [contradiction |].
  reflexivity.
Qed.

Lemma avgAmplitude_empty (a : Service) :
  avgAmplitude [] a = Panic DivideByZero.
Proof. reflexivity. Qed.

Lemma processAudio_gate_closed (input : list Z) (a : Service) :
  isListening a = false \/ isConnected a = false ->
  processAudio input a = Done (tt, a, []).
Proof.
  intros H. unfold processAudio, bind, get.
  destruct H as [H | H]; rewrite H.
  - reflexivity.
  - rewrite orb_true_r. reflexivity.
Qed.

Lemma processAudio_gate_open (input : list Z) (a : Service) :
  isListening a = true -> isConnected a = true -> input <> [] ->
  processAudio input a
  = Done (tt, with_audioBuffer (audioBuffer a ++ input) a, []).
Proof.
  intros HL HC Hne. unfold processAudio, bind, get, modify.
  rewrite HL, HC. simpl.
  rewrite avgAmplitude_nonempty by exact Hne. reflexivity.
Qed.

Lemma processAudio_gate_open_empty (a : Service) :
  isListening a = true -> isConnected a = true ->
  processAudio [] a = Panic DivideByZero.
Proof.
  intros HL HC. unfold processAudio, bind, get, modify.
  rewrite HL, HC. reflexivity.
Qed.

(** C7. Start and stop are idempotent: a start while already listening
    returns success, performs no effect and leaves the whole state, so the
    request and connection identifiers, as it was (no dial, no second
    connection), also over any sequence of such calls; a stop while not
    listening returns success, performs no effect and invokes no
    callback. *)
Theorem start_stop_idempotent
    (unmarshal : string -> option SpeechResultMessage)
    (a : Service) (env : Env) (envs : list Env) (recv flush : nat) :
  (isListening a = true ->
     StartContinuousRecognition env a = Done (None, a, []) /\
     run unmarshal (List.map CallStart envs) (mkSystem a recv flush)
     = Done (mkSystem a recv flush, [])) /\
  (isListening a = false ->
     StopContinuousRecognition env a = Done (None, a, [])).
Proof.
  split.
  - intros H. split.
    + apply start_while_listening. exact H.
    + apply repeated_starts_while_listening. exact H.
  - apply stop_while_not_listening.
Qed.

(** C9. [processAudio] divides the amplitude sum by the length of its
    input with no guard: on a non-empty input the call returns (no panic),
    and it panics with a division by zero exactly when both flags are set
    and the input slice is empty. *)
Theorem processAudio_division_unguarded (input : list Z) (a : Service) :
  (input <> [] -> exists a', processAudio input a = Done (tt, a', [])) /\
  (input <> [] ->
   avgAmplitude input a = Done (Z.quot (amplitudeSum input) (Wire.len input), a, [])) /\
  (processAudio input a = Panic DivideByZero <->
   isListening a = true /\ isConnected a = true /\ input = []).
Proof.
  split; [| split].
  - intros Hne.
    destruct (isListening a) eqn:HL; [destruct (isConnected a) eqn:HC |].
    + eexists. apply processAudio_gate_open; assumption.
    + exists a. apply processAudio_gate_closed. right. exact HC.
    + exists a. apply processAudio_gate_closed. left. exact HL.
  - apply avgAmplitude_nonempty.
  - split.
    + intros Hp.
      destruct (isListening a) eqn:HL;
        [destruct (isConnected a) eqn:HC |].
      * destruct input as [| x xs]; [auto |].
        rewrite processAudio_gate_open in Hp by (assumption || discriminate).
        discriminate.
      * rewrite processAudio_gate_closed in Hp by (right; exact HC). discriminate.
      * rewrite processAudio_gate_closed in Hp by (left; exact HL). discriminate.
    + intros (HL & HC & ->). apply processAudio_gate_open_empty; assumption.
Qed.

(** C10. While the listening flag or the connected flag is false,
    [processAudio] returns at once and leaves the whole state, the audio
    buffer included, unchanged; a call that changes the buffer was made with
    both flags set, and then the samples are appended to the buffer. *)
Theorem processAudio_gated_on_flags (input : list Z) (a : Service) :
  (isListening a = false \/ isConnected a = false ->
   processAudio input a = Done (tt, a, [])) /\
  (forall a' tr,
      processAudio input a = Done (tt, a', tr) ->
      audioBuffer a' <> audioBuffer a ->
      isListening a = true /\ isConnected a = true /\
      audioBuffer a' = (audioBuffer a ++ input)%list).
Proof.
  split.
  - apply processAudio_gate_closed.
  - intros a' tr Hrun Hneq.
    destruct (isListening a) eqn:HL; [destruct (isConnected a) eqn:HC |].
    + destruct input as [| x xs].
      * rewrite processAudio_gate_open_empty in Hrun by assumption. discriminate.
      * rewrite processAudio_gate_open in Hrun by (assumption || discriminate).
        injection Hrun as <- _. auto.
    + rewrite processAudio_gate_closed in Hrun by (right; exact HC).
      injection Hrun as <- _. contradiction.
    + rewrite processAudio_gate_closed in Hrun by (left; exact HL).
      injection Hrun as <- _. contradiction.
Qed.

(** ** Every way a start can go *)

Lemma start_dial_fails (env : Env) (a : Service) (e : error) :
  isListening a = false ->
  dialResult env = Err e ->
  StartContinuousRecognition env a
  = Done (Some (Errorf "failed to connect to WebSocket: %v"
                  (Errorf "WebSocket dial failed: %v" e)),
          a, [EvDial (dialHost a)]).
Proof.
  intros HL HD. run_method. rewrite HL. simpl. rewrite HD. reflexivity.
Qed.

Lemma start_config_send_fails (env : Env) (a : Service) (c : Conn) (e : error) :
  isListening a = false ->
  dialResult env = Ok c ->
  writeResult env = Some e ->
  StartContinuousRecognition env a
  = Done (Some (Errorf "failed to connect to WebSocket: %v" e),
          connected c (freshId env) a,
          [EvDial (dialHost a); EvSet FConnected true;
           EvWriteText c (speechConfigMessage (requestId a) (now env))]).
Proof.
  intros HL HD HW. run_method. rewrite HL. simpl. rewrite HD. simpl.
  rewrite HW. reflexivity.
Qed.

Lemma start_open_fails (env : Env) (a : Service) (c : Conn) (e : error) :
  isListening a = false ->
  dialResult env = Ok c ->
  writeResult env = None ->
  openResult env = Err e ->
  StartContinuousRecognition env a
  = Done (Some (Errorf "failed to start audio capture: %v"
                  (Errorf "failed to open audio stream: %v" e)),
          disconnected (with_audioBuffer [] (connected c (freshId env) a)),
          [EvDial (dialHost a); EvSet FConnected true;
           EvWriteText c (speechConfigMessage (requestId a) (now env));
           EvConnClose c; EvSet FConnected false]).
Proof.
  intros HL HD HW HO. run_method. rewrite HL. simpl. rewrite HD. simpl.
  rewrite HW. simpl. rewrite HO. reflexivity.
Qed.

Lemma start_stream_start_fails
    (env : Env) (a : Service) (c : Conn) (s : Stream) (e : error) :
  isListening a = false ->
  dialResult env = Ok c ->
  writeResult env = None ->
  openResult env = Ok s ->
  startResult env = Some e ->
  StartContinuousRecognition env a
  = Done (Some (Errorf "failed to start audio capture: %v"
                  (Errorf "failed to start audio stream: %v" e)),
          disconnected
            (with_stream None (with_audioBuffer [] (connected c (freshId env) a))),
          [EvDial (dialHost a); EvSet FConnected true;
           EvWriteText c (speechConfigMessage (requestId a) (now env));
           EvStreamOpen s; EvStreamStart s; EvStreamStop s; EvStreamClose s;
           EvConnClose c; EvSet FConnected false]).
Proof.
  intros HL HD HW HO HS. run_method. rewrite HL. simpl. rewrite HD. simpl.
  rewrite HW. simpl. rewrite HO. simpl. rewrite HS. reflexivity.
Qed.

Lemma start_succeeds (env : Env) (a : Service) (c : Conn) (s : Stream) :
  isListening a = false ->
  dialResult env = Ok c ->
  writeResult env = None ->
  openResult env = Ok s ->
  startResult env = None ->
  StartContinuousRecognition env a
  = Done (None, listening c s (freshId env) a,
          [EvDial (dialHost a); EvSet FConnected true;
           EvWriteText c (speechConfigMessage (requestId a) (now env));
           EvStreamOpen s; EvStreamStart s; EvSet FListening true;
           EvGo RecvTask; EvGo FlushTask]).
Proof.
  intros HL HD HW HO HS. run_method. rewrite HL. simpl. rewrite HD. simpl.
  rewrite HW. simpl. rewrite HO. simpl. rewrite HS. reflexivity.
Qed.

(** ** Teardown *)

Lemma stop_while_listening (env : Env) (a : Service) :
  isListening a = true ->
  StopContinuousRecognition env a
  = Done (None, stopped a,
          [EvSet FShuttingDown true]
          ++ endOfAudio env a ++ releaseDevice a ++ closeConnection a
          ++ [EvSet FConnected false; EvSet FListening false;
              EvSet FShuttingDown false])%list.
Proof.
  intros HL. destruct a as [k r l cn ic il sd st buf onr one sr ch fpb rid cid].
  simpl in HL. subst il.
  unfold endOfAudio, releaseDevice, closeConnection, stopped, disconnected.
  run_method.
  destruct ic, cn as [c |], st as [s |]; reflexivity.
Qed.

Lemma stopped_is_idle (a : Service) :
  Idle (stopped a) /\ stream (stopped a) = None /\ isShuttingDown (stopped a) = false.
Proof. unfold Idle. simpl. auto. Qed.

Lemma stopped_keeps_identity (a : Service) :
  requestId (stopped a) = requestId a /\
  connectionId (stopped a) = connectionId a /\
  audioBuffer (stopped a) = audioBuffer a /\
  onRecognized (stopped a) = onRecognized a /\
  onError (stopped a) = onError a.
Proof. simpl. auto. Qed.

(** ** The frames *)

Lemma endOfStream_is_empty_audio (reqId ts : string) :
  endOfStreamMessage reqId ts = audioMessage reqId ts [].
Proof.
  unfold endOfStreamMessage, audioMessage, audioBytes. simpl.
  rewrite app_nil_r. reflexivity.
Qed.

Lemma framePayload_audioMessage (reqId ts : string) (audioData : list Z) :
  Wire.len (Wire.bytes_of_string (audioHeaders reqId ts)) <= 65535 ->
  framePayload (audioMessage reqId ts audioData) = Some (audioBytes audioData).
Proof.
  intros Hlen. unfold framePayload.
  rewrite audioMessage_header_length by exact Hlen.
  unfold audioMessage.
  set (h := Wire.bytes_of_string (audioHeaders reqId ts)) in *.
  assert (Hpos : 0 <= Wire.len h) by (unfold Wire.len; lia).
  rewrite uint16_small by lia.
  unfold Wire.len. rewrite Nat2Z.id.
  change (Wire.BigEndian_PutUint16 (Z.of_nat (Datatypes.length h)) ++ h ++ audioBytes audioData)%list
    with (Wire.byte (Z.shiftr (Z.of_nat (Datatypes.length h)) 8)
          :: Wire.byte (Z.of_nat (Datatypes.length h))
          :: (h ++ audioBytes audioData))%list.
  simpl. rewrite skipn_app, skipn_all, Nat.sub_diag. reflexivity.
Qed.

Lemma audioBytes_length (audioData : list Z) :
  List.length (audioBytes audioData) = (2 * List.length audioData)%nat.
Proof.
  induction audioData as [| x xs IH]; simpl; [reflexivity |].
  rewrite IH. lia.
Qed.

(** ** The flush task *)

Lemma tick_sends_buffer (env : Env) (a : Service) (c : Conn) :
  isListening a = true -> isConnected a = true -> conn a = Some c ->
  audioBuffer a <> [] ->
  writeResult env = None ->
  handleAudioStreaming_tick env a
  = Done (Continue, with_audioBuffer [] a,
          [EvWriteBinary c (audioMessage (requestId a) (now env) (audioBuffer a))]).
Proof.
  intros HL HC HN HB HW.
  destruct a as [k r l cn ic il sd st buf onr one sr ch fpb rid cid].
  simpl in *. subst il ic cn.
  destruct buf as [| x xs]; [contradiction |].
  run_method. rewrite HW. reflexivity.
Qed.

Lemma tick_send_fails (env : Env) (a : Service) (c : Conn) (e : error) :
  isListening a = true -> isConnected a = true -> conn a = Some c ->
  audioBuffer a <> [] ->
  writeResult env = Some e ->
  handleAudioStreaming_tick env a
  = Done (Return, a,
          EvWriteBinary c (audioMessage (requestId a) (now env) (audioBuffer a))
          :: reportError a e).
Proof.
  intros HL HC HN HB HW.
  destruct a as [k r l cn ic il sd st buf onr one sr ch fpb rid cid].
  simpl in *. subst il ic cn.
  destruct buf as [| x xs]; [contradiction |].
  unfold reportError. run_method. rewrite HW.
  destruct one; reflexivity.
Qed.

Lemma tick_empty_buffer (env : Env) (a : Service) :
  isListening a = true -> isConnected a = true ->
  audioBuffer a = [] ->
  handleAudioStreaming_tick env a = Done (Continue, a, []).
Proof.
  intros HL HC HB. run_method. rewrite HL, HC, HB. reflexivity.
Qed.


Lemma tick_binary_frames (env : Env) (a : Service) (c : Conn) :
  isListening a = true -> isConnected a = true -> conn a = Some c ->
  audioBuffer a <> [] ->
  exists ctl a' tr,
    handleAudioStreaming_tick env a = Done (ctl, a', tr) /\
    tr = (EvWriteBinary c (audioMessage (requestId a) (now env) (audioBuffer a))
          :: match writeResult env with
             | Some e => reportError a e
             | None => []
             end) /\
    a' = match writeResult env with
         | Some _ => a
         | None => with_audioBuffer [] a
         end.
Proof.
  intros HL HC HN HB.
  destruct (writeResult env) as [e |] eqn:HW.
  - do 3 eexists. split; [apply (tick_send_fails env a c e); assumption |].
    split; reflexivity.
  - do 3 eexists. split; [apply (tick_sends_buffer env a c); assumption |].
    split; reflexivity.
Qed.

(** C1 (the path on which the code departs from it). When the dial
    succeeds and the send of the configuration frame fails, start returns
    the error with the connection still open: the connected flag is set, the
    handle is kept and no close was performed. *)
Theorem start_config_send_failure_keeps_connection
    (env : Env) (a : Service) (c : Conn) (e : error) :
  Idle a ->
  dialResult env = Ok c ->
  writeResult env = Some e ->
  exists a' tr,
    StartContinuousRecognition env a
    = Done (Some (Errorf "failed to connect to WebSocket: %v" e), a', tr) /\
    isListening a' = false /\
    isConnected a' = true /\
    conn a' = Some c /\
    closes tr = 0%nat /\
    ~ Idle a'.
Proof.
  intros (HL & HC & HN) HD HW.
  do 2 eexists. split; [apply start_config_send_fails; eassumption |].
  simpl. repeat split; try assumption.
  unfold Idle. simpl. intros (_ & Habs & _). discriminate.
Qed.

(** The other two failures of a start do release what was opened: after a
    failed dial nothing was opened and the state is untouched, and after a
    failed capture the connection is closed and the engine is at rest. *)
Lemma start_failures_that_release (env : Env) (a : Service) :
  Idle a -> stream a = None ->
  (forall e, dialResult env = Err e ->
     exists err tr,
       StartContinuousRecognition env a = Done (Some err, a, tr) /\
       closes tr = 0%nat) /\
  (forall c, dialResult env = Ok c -> writeResult env = None ->
     (exists e, openResult env = Err e) \/
     (exists s e, openResult env = Ok s /\ startResult env = Some e) ->
     exists err a' tr,
       StartContinuousRecognition env a = Done (Some err, a', tr) /\
       Idle a' /\ stream a' = None /\ closes tr = 1%nat).
Proof.
  intros (HL & HC & HN) HS. split.
  - intros e HD. do 2 eexists.
    split; [apply (start_dial_fails env a e); assumption | reflexivity].
  - intros c HD HW [[e HO] | (s & e & HO & HSt)].
    + do 3 eexists. split; [apply (start_open_fails env a c e); assumption |].
      unfold Idle. simpl. auto.
    + do 3 eexists.
      split; [apply (start_stream_start_fails env a c s e); assumption |].
      unfold Idle. simpl. auto.
Qed.

(** C5. A stop while listening returns success and performs, in this
    order: the shutting-down flag is set; the end-of-audio frame is sent,
    exactly when the connection is still open; the audio device is
    released; the connection is closed and the connected flag cleared; the
    listening flag is cleared; the shutting-down flag is reset.  The engine
    is left at rest.  The end-of-audio frame is an audio frame with the same
    header block and a payload of length zero. *)
Theorem stop_effect_order (env : Env) (a : Service) :
  isListening a = true ->
  StopContinuousRecognition env a
  = Done (None, stopped a,
          [EvSet FShuttingDown true]
          ++ endOfAudio env a ++ releaseDevice a ++ closeConnection a
          ++ [EvSet FConnected false; EvSet FListening false;
              EvSet FShuttingDown false])%list /\
  (forall c s,
      isConnected a = true -> conn a = Some c -> stream a = Some s ->
      traceOf (StopContinuousRecognition env a)
      = [EvSet FShuttingDown true;
         EvWriteBinary c (endOfStreamMessage (requestId a) (now env));
         EvStreamStop s; EvStreamClose s;
         EvConnClose c; EvSet FConnected false;
         EvSet FListening false;
         EvSet FShuttingDown false]) /\
  (endOfAudio env a <> [] <-> isConnected a = true /\ conn a <> None) /\
  Idle (stopped a) /\ stream (stopped a) = None /\
  isShuttingDown (stopped a) = false /\
  endOfStreamMessage (requestId a) (now env)
  = audioMessage (requestId a) (now env) [] /\
  (Wire.len (Wire.bytes_of_string (audioHeaders (requestId a) (now env))) <= 65535 ->
   framePayload (endOfStreamMessage (requestId a) (now env)) = Some []).
Proof.
  intros HL.
  split; [apply stop_while_listening; exact HL |].
  split.
  { intros c s HC HN HS. rewrite stop_while_listening by exact HL.
    unfold endOfAudio, releaseDevice, closeConnection.
    rewrite HC, HN, HS. reflexivity. }
  split.
  { unfold endOfAudio.
    destruct (isConnected a), (conn a) as [c |]; split;
      try (intros H; (contradiction || discriminate));
      try (intros [H1 H2]; (contradiction || discriminate)).
    intros _. split; [reflexivity | discriminate]. }
  pose proof (stopped_is_idle a) as (HI & HS & HD).
  repeat (split; [assumption |]).
  split; [apply endOfStream_is_empty_audio |].
  intros Hlen. rewrite endOfStream_is_empty_audio.
  rewrite framePayload_audioMessage by exact Hlen. reflexivity.
Qed.

(** ** Running a session *)

Lemma with_audioBuffer_same (a : Service) :
  with_audioBuffer (audioBuffer a) a = a.
Proof. destruct a. reflexivity. Qed.

Lemma with_audioBuffer_twice (b1 b2 : list Z) (a : Service) :
  with_audioBuffer b2 (with_audioBuffer b1 a) = with_audioBuffer b2 a.
Proof. reflexivity. Qed.

Lemma outcome_eta (A : Type) (o : outcome (A * list Event)) :
  match o with
  | Panic p => Panic p
  | Done (x, tr) => Done (x, ([] ++ tr)%list)
  end = o.
Proof. destruct o as [[x tr] |]; reflexivity. Qed.

Lemma feed_audio (unmarshal : string -> option SpeechResultMessage)
    (feed : list (list Z)) (rest : list Action) (a : Service) (r f : nat) :
  isListening a = true -> isConnected a = true -> stream a <> None ->
  Forall (fun chunk => chunk <> []) feed ->
  run unmarshal (List.map AudioCallback feed ++ rest) (mkSystem a r f)
  = run unmarshal rest
      (mkSystem (with_audioBuffer (audioBuffer a ++ List.concat feed) a) r f).
Proof.
  intros HL HC HS Hne. revert a HL HC HS.
  induction Hne as [| chunk feed Hchunk Hfeed IH]; intros a HL HC HS.
  - simpl. rewrite app_nil_r, with_audioBuffer_same. reflexivity.
  - simpl. destruct (stream a) as [s |] eqn:Hs; [| contradiction].
    rewrite processAudio_gate_open by assumption.
    rewrite outcome_eta.
    rewrite IH by (simpl; congruence).
    simpl. rewrite app_assoc. reflexivity.
Qed.

Lemma flush_round (unmarshal : string -> option SpeechResultMessage)
    (feed : list (list Z)) (env : Env) (rest : list Action)
    (a : Service) (r f : nat) (c : Conn) :
  isListening a = true -> isConnected a = true -> conn a = Some c ->
  stream a <> None -> audioBuffer a = [] ->
  Forall (fun chunk => chunk <> []) feed -> List.concat feed <> [] ->
  writeResult env = None ->
  run unmarshal (List.map AudioCallback feed ++ FlushTick env :: rest)
      (mkSystem a r (S f))
  = match run unmarshal rest (mkSystem a r (S f)) with
    | Panic p => Panic p
    | Done (sys, tr) =>
        Done (sys,
              EvWriteBinary c (audioMessage (requestId a) (now env) (List.concat feed))
              :: tr)
    end.
Proof.
  intros HL HC HN HS HB Hne Hcat HW.
  rewrite feed_audio by assumption.
  rewrite HB. simpl app.
  cbn [run step svc flushTasks recvTasks].
  rewrite (tick_sends_buffer env (with_audioBuffer (List.concat feed) a) c)
    by assumption.
  rewrite with_audioBuffer_twice.
  rewrite <- HB at 1. rewrite with_audioBuffer_same.
  reflexivity.
Qed.

Lemma last_round_then_stop (unmarshal : string -> option SpeechResultMessage)
    (feed : list (list Z)) (env envStop : Env)
    (a : Service) (r f : nat) (c : Conn) (s : Stream) :
  isListening a = true -> isConnected a = true -> conn a = Some c ->
  stream a = Some s -> audioBuffer a = [] ->
  Forall (fun chunk => chunk <> []) feed -> List.concat feed <> [] ->
  exists sys tr,
    run unmarshal (List.map AudioCallback feed ++ FlushTick env :: [CallStop envStop])
        (mkSystem a r (S f)) = Done (sys, tr) /\
    binaryFrames tr
    = [audioMessage (requestId a) (now env) (List.concat feed);
       endOfStreamMessage (requestId a) (now envStop)] /\
    binaryFrames (beforeClose tr) = binaryFrames tr /\
    closes tr = 1%nat /\
    Idle (svc sys).
Proof.
  intros HL HC HN HS HB Hne Hcat.
  rewrite feed_audio by (assumption || congruence).
  rewrite HB. simpl app.
  set (a1 := with_audioBuffer (List.concat feed) a).
  assert (HL1 : isListening a1 = true) by exact HL.
  assert (HC1 : isConnected a1 = true) by exact HC.
  assert (HN1 : conn a1 = Some c) by exact HN.
  assert (HS1 : stream a1 = Some s) by exact HS.
  assert (HB1 : audioBuffer a1 <> []) by exact Hcat.
  destruct (tick_binary_frames env a1 c HL1 HC1 HN1 HB1)
    as (ctl & a2 & tr & Htick & Htr & Ha2).
  cbn [run step svc flushTasks recvTasks].
  rewrite Htick.
  cbn [run step svc flushTasks recvTasks].
  assert (HL2 : isListening a2 = true)
    by (subst a2; destruct (writeResult env); exact HL).
  assert (HC2 : isConnected a2 = true)
    by (subst a2; destruct (writeResult env); exact HC).
  assert (HN2 : conn a2 = Some c)
    by (subst a2; destruct (writeResult env); exact HN).
  assert (HS2 : stream a2 = Some s)
    by (subst a2; destruct (writeResult env); exact HS).
  assert (HR2 : requestId a2 = requestId a)
    by (subst a2; destruct (writeResult env); reflexivity).
  rewrite (stop_while_listening envStop a2 HL2).
  unfold endOfAudio, releaseDevice, closeConnection.
  rewrite HC2, HN2, HS2, HR2.
  do 2 eexists. split; [reflexivity |].
  subst tr. unfold reportError.
  change (audioBuffer a1) with (List.concat feed).
  change (requestId a1) with (requestId a).
  destruct (writeResult env) as [e |]; [destruct (onError a1) |];
    simpl; (split; [reflexivity |]); (split; [reflexivity |]);
    (split; [reflexivity |]); apply stopped_is_idle.
Qed.

Lemma buffered_nonempty (feed : list (list Z)) (n : nat) :
  buffered feed (S n) -> List.concat feed <> [].
Proof.
  intros [_ Hlen] Habs. rewrite Habs in Hlen. discriminate.
Qed.

(** C4. In a session that starts successfully, sees three flush ticks
    that each find 1,600 buffered samples, and is then stopped, exactly
    three audio frames and then one end-of-audio frame are sent, in the
    order the buffers were filled, and all four before the one close of the
    connection; the engine is at rest afterwards.  (A flush write that
    fails ends the flush task, so for a third tick to happen the first two
    writes succeed; the frames handed to the connection are the same
    whatever the third write and the end-of-audio write return.) *)
Theorem three_flushes_then_stop
    (unmarshal : string -> option SpeechResultMessage)
    (a0 : Service) (r f : nat) (c : Conn) (s : Stream)
    (envStart e1 e2 e3 envStop : Env) (feed1 feed2 feed3 : list (list Z)) :
  isListening a0 = false ->
  dialResult envStart = Ok c -> writeResult envStart = None ->
  openResult envStart = Ok s -> startResult envStart = None ->
  buffered feed1 1600 -> buffered feed2 1600 -> buffered feed3 1600 ->
  writeResult e1 = None -> writeResult e2 = None ->
  exists sys tr,
    run unmarshal (session envStart e1 e2 e3 envStop feed1 feed2 feed3)
        (mkSystem a0 r f) = Done (sys, tr) /\
    binaryFrames tr
    = [audioMessage (requestId a0) (now e1) (List.concat feed1);
       audioMessage (requestId a0) (now e2) (List.concat feed2);
       audioMessage (requestId a0) (now e3) (List.concat feed3);
       endOfStreamMessage (requestId a0) (now envStop)] /\
    binaryFrames (beforeClose tr) = binaryFrames tr /\
    closes tr = 1%nat /\
    Idle (svc sys).
Proof.
  intros HL HD HW HO HS B1 B2 B3 HW1 HW2.
  pose proof (buffered_nonempty _ _ B1) as N1.
  pose proof (buffered_nonempty _ _ B2) as N2.
  pose proof (buffered_nonempty _ _ B3) as N3.
  destruct B1 as [F1 _], B2 as [F2 _], B3 as [F3 _].
  unfold session.
  cbn [run step svc flushTasks recvTasks].
  rewrite (start_succeeds envStart a0 c s HL HD HW HO HS).
  change (started RecvTask _ + r)%nat with (S r).
  change (started FlushTask _ + f)%nat with (S f).
  set (a := listening c s (freshId envStart) a0).
  rewrite (flush_round unmarshal feed1 e1 _ a (S r) f c)
    by (reflexivity || discriminate || assumption).
  rewrite (flush_round unmarshal feed2 e2 _ a (S r) f c)
    by (reflexivity || discriminate || assumption).
  destruct (last_round_then_stop unmarshal feed3 e3 envStop a (S r) f c s)
    as (sys & tr & Hrun & Hframes & Hbefore & Hcloses & Hidle);
    try (reflexivity || assumption).
  rewrite Hrun.
  do 2 eexists. split; [reflexivity |].
  change (requestId a) with (requestId a0) in *.
  simpl. rewrite Hframes, Hbefore, Hframes, Hcloses.
  repeat split; try reflexivity; apply Hidle.
Qed.

(** ** The demultiplexer *)

Example split_final_phrase_frame :
  Bytes.Split
    (textFrame ("X-RequestId:42" ++ CRLF ++ "Path:speech.phrase") bodyDisplayText)
    (CRLF ++ CRLF)
  = ["X-RequestId:42" ++ CRLF ++ "Path:speech.phrase"; bodyDisplayText].
Proof. vm_compute. reflexivity. Qed.

Example split_without_blank_line :
  Bytes.Split "Path:speech.phrase" (CRLF ++ CRLF) = ["Path:speech.phrase"].
Proof. vm_compute. reflexivity. Qed.

Example split_trailing_separator :
  Bytes.Split ("a" ++ CRLF ++ CRLF) (CRLF ++ CRLF) = ["a"; EmptyString].
Proof. vm_compute. reflexivity. Qed.

Example contains_examples :
  Bytes.Contains "Content-Type:x; Path:speech.phrase" "Path:speech.phrase" = true /\
  Bytes.Contains "Path:speech.hypothesis" "Path:speech.phrase" = false /\
  Bytes.Contains "Path: speech.phrase" "Path:speech.phrase" = false.
Proof. vm_compute. auto. Qed.

Section DemuxFacts.

Variable unmarshal : string -> option SpeechResultMessage.

Lemma text_without_separator (data : string) (a : Service) :
  headerBlock data = None ->
  handleTextMessage unmarshal data a = Done (tt, a, []).
Proof.
  unfold headerBlock, handleTextMessage.
  destruct (Bytes.Split data (CRLF ++ CRLF)) as [| h [| b rest]];
    try reflexivity.
  discriminate.
Qed.

Lemma text_without_marker (data headers : string) (a : Service) :
  headerBlock data = Some headers ->
  Bytes.Contains headers "Path:speech.phrase" = false ->
  handleTextMessage unmarshal data a = Done (tt, a, []).
Proof.
  unfold headerBlock, handleTextMessage.
  destruct (Bytes.Split data (CRLF ++ CRLF)) as [| h [| b rest]];
    try discriminate.
  intros [= ->] ->. reflexivity.
Qed.

Lemma text_undecodable (data headers body : string) (rest : list string)
    (a : Service) :
  Bytes.Split data (CRLF ++ CRLF) = headers :: body :: rest ->
  unmarshal body = None ->
  handleTextMessage unmarshal data a = Done (tt, a, []).
Proof.
  intros HS HU. unfold handleTextMessage. rewrite HS, HU.
  destruct (Bytes.Contains headers "Path:speech.phrase"); reflexivity.
Qed.

Lemma text_not_success (data headers body : string) (rest : list string)
    (result : SpeechResultMessage) (a : Service) :
  Bytes.Split data (CRLF ++ CRLF) = headers :: body :: rest ->
  unmarshal body = Some result ->
  RecognitionStatus result <> "Success" ->
  handleTextMessage unmarshal data a = Done (tt, a, []).
Proof.
  intros HS HU Hst. unfold handleTextMessage. rewrite HS, HU.
  apply String.eqb_neq in Hst. rewrite Hst.
  destruct (Bytes.Contains headers "Path:speech.phrase"); reflexivity.
Qed.

Lemma text_display_text (data headers body : string) (rest : list string)
    (result : SpeechResultMessage) (a : Service) :
  Bytes.Split data (CRLF ++ CRLF) = headers :: body :: rest ->
  Bytes.Contains headers "Path:speech.phrase" = true ->
  unmarshal body = Some result ->
  RecognitionStatus result = "Success" ->
  DisplayText result <> EmptyString ->
  onRecognized a = true ->
  handleTextMessage unmarshal data a
  = Done (tt, a, [EvRecognized (DisplayText result)]).
Proof.
  intros HS HC HU Hst Hd Hcb. unfold handleTextMessage.
  rewrite HS, HC, HU, Hst. simpl.
  apply String.eqb_neq in Hd. rewrite Hd. simpl. rewrite Hd. simpl.
  unfold bind, get. rewrite Hcb. reflexivity.
Qed.

Lemma text_first_alternative (data headers body : string) (rest : list string)
    (result : SpeechResultMessage) (first : NBestEntry)
    (others : list NBestEntry) (a : Service) :
  Bytes.Split data (CRLF ++ CRLF) = headers :: body :: rest ->
  Bytes.Contains headers "Path:speech.phrase" = true ->
  unmarshal body = Some result ->
  RecognitionStatus result = "Success" ->
  DisplayText result = EmptyString ->
  NBest result = first :: others ->
  Display first <> EmptyString ->
  onRecognized a = true ->
  handleTextMessage unmarshal data a
  = Done (tt, a, [EvRecognized (Display first)]).
Proof.
  intros HS HC HU Hst Hd Hn Hf Hcb. unfold handleTextMessage.
  rewrite HS, HC, HU, Hst, Hd, Hn. simpl.
  apply String.eqb_neq in Hf. rewrite Hf. simpl. rewrite Hf. simpl.
  unfold bind, get. rewrite Hcb. reflexivity.
Qed.

(** Whatever the frame, the callback is invoked only behind the test
    for the marker. *)
Lemma text_dispatch_needs_marker (data : string) (a : Service) (text : string) :
  In (EvRecognized text) (traceOf (handleTextMessage unmarshal data a)) ->
  exists headers,
    headerBlock data = Some headers /\
    Bytes.Contains headers "Path:speech.phrase" = true.
Proof.
  intros Hin.
  destruct (headerBlock data) as [headers |] eqn:Hh.
  - exists headers. split; [reflexivity |].
    destruct (Bytes.Contains headers "Path:speech.phrase") eqn:Hc;
      [reflexivity |].
    rewrite (text_without_marker data headers a Hh Hc) in Hin.
    destruct Hin.
  - rewrite (text_without_separator data a Hh) in Hin. destruct Hin.
Qed.

End DemuxFacts.

(** C2. For a frame whose header block carries the final-phrase path
    and whose body decodes to a result record: with status
    [Success] and a non-empty [DisplayText] the recognized-text callback is
    invoked exactly once, with that text; with status [Success], an empty
    [DisplayText] and a non-empty first N-best alternative it is invoked
    exactly once, with the alternative; with any other status it is not
    invoked. *)
Theorem final_phrase_dispatch
    (unmarshal : string -> option SpeechResultMessage)
    (data headers body : string) (rest : list string)
    (result : SpeechResultMessage) (a : Service) :
  Bytes.Split data (CRLF ++ CRLF) = headers :: body :: rest ->
  Bytes.Contains headers "Path:speech.phrase" = true ->
  unmarshal body = Some result ->
  (RecognitionStatus result = "Success" ->
   DisplayText result <> EmptyString ->
   onRecognized a = true ->
   handleTextMessage unmarshal data a
   = Done (tt, a, [EvRecognized (DisplayText result)])) /\
  (RecognitionStatus result = "Success" ->
   DisplayText result = EmptyString ->
   forall first others,
     NBest result = first :: others ->
     Display first <> EmptyString ->
     onRecognized a = true ->
     handleTextMessage unmarshal data a
     = Done (tt, a, [EvRecognized (Display first)])) /\
  (RecognitionStatus result <> "Success" ->
   handleTextMessage unmarshal data a = Done (tt, a, [])).
Proof.
  intros HS HC HU. split; [| split].
  - intros Hst Hd Hcb. eapply text_display_text; eassumption.
  - intros Hst Hd first others Hn Hf Hcb.
    eapply text_first_alternative; eassumption.
  - intros Hst. eapply text_not_success; eassumption.
Qed.

(** C3, as the code has it. A frame whose header block does not contain
    the text [Path:speech.phrase] never reaches the recognized-text
    callback, whatever its body and whatever the decoder would make of
    it. *)
Theorem frame_without_marker_never_dispatches
    (unmarshal : string -> option SpeechResultMessage)
    (data : string) (a : Service) :
  (forall headers,
      headerBlock data = Some headers ->
      Bytes.Contains headers "Path:speech.phrase" = false) ->
  handleTextMessage unmarshal data a = Done (tt, a, []).
Proof.
  intros H.
  destruct (headerBlock data) as [headers |] eqn:Hh.
  - apply (text_without_marker unmarshal data headers a Hh). apply H. reflexivity.
  - apply text_without_separator. exact Hh.
Qed.

(** C3, as the specification words it, fails: the code looks for the text
    [Path:speech.phrase] anywhere in the header block, so a frame whose
    path field is [speech.phrases] is taken for a final phrase and its text
    is handed to the callback. *)
Lemma longer_path_value_is_dispatched : ~ spec_other_path_claim.
Proof.
  intros Hclaim.
  specialize (Hclaim sampleUnmarshal
                (textFrame "Path:speech.phrases" bodyDisplayText)
                "Path:speech.phrases" sampleSession).
  assert (Hcalls :
            recognizedCalls
              (traceOf (handleTextMessage sampleUnmarshal
                          (textFrame "Path:speech.phrases" bodyDisplayText)
                          sampleSession))
            = ["Hello world."]) by (vm_compute; reflexivity).
  rewrite Hclaim in Hcalls.
  - discriminate.
  - vm_compute. reflexivity.
  - vm_compute. discriminate.
Qed.

Example path_field_examples :
  spec_pathField "Path:speech.phrases" = Some "speech.phrases" /\
  spec_pathField ("X-RequestId:42" ++ CRLF ++ "Path:speech.phrase")
  = Some "speech.phrase" /\
  spec_pathField ("Content-Type:application/json" ++ CRLF ++ "Path:turn.end")
  = Some "turn.end".
Proof. vm_compute. auto. Qed.

(** ** How [bytes.Split] cuts a frame *)

Lemma prefix_nil (s : string) : prefix EmptyString s = true.
Proof. destruct s; reflexivity. Qed.

Lemma prefix_app_self (s t : string) : prefix s (s ++ t) = true.
Proof.
  induction s as [| c s IH]; simpl.
  - apply prefix_nil.
  - destruct (ascii_dec c c) as [_ | Hne]; [exact IH | contradiction].
Qed.

Lemma prefix_app_long (s u t : string) :
  (String.length s <= String.length u)%nat ->
  prefix s (u ++ t) = prefix s u.
Proof.
  revert u. induction s as [| c s IH]; intros u Hlen.
  - rewrite !prefix_nil. reflexivity.
  - destruct u as [| d u]; simpl in Hlen; [lia |].
    simpl. destruct (ascii_dec c d); [apply IH; lia | reflexivity].
Qed.

Lemma append_assoc (s t u : string) : (s ++ t) ++ u = s ++ t ++ u.
Proof. induction s as [| c s IH]; simpl; [| rewrite IH]; reflexivity. Qed.

Lemma append_nil_r (s : string) : s ++ EmptyString = s.
Proof. induction s as [| c s IH]; simpl; [| rewrite IH]; reflexivity. Qed.

Lemma length_append (s t : string) :
  String.length (s ++ t) = (String.length s + String.length t)%nat.
Proof. induction s as [| c s IH]; simpl; [| rewrite IH]; reflexivity. Qed.

(** The splitting scan always yields at least one piece. *)
Lemma splitFrom_nonempty (sep s : string) (skip : nat) (cur : string) :
  exists piece pieces, Bytes.splitFrom sep s skip cur = piece :: pieces.
Proof.
  revert skip cur. induction s as [| ch s IH]; intros skip cur.
  - simpl. eauto.
  - cbn [Bytes.splitFrom]. destruct skip as [| k]; [| apply IH].
    destruct (prefix sep (String ch s)); [eauto | apply IH].
Qed.

Lemma splitFrom_skip (sep u tail cur : string) :
  Bytes.splitFrom sep (u ++ tail) (String.length u) cur
  = Bytes.splitFrom sep tail O cur.
Proof.
  induction u as [| c u IH]; [reflexivity |].
  cbn [append String.length Bytes.splitFrom]. exact IH.
Qed.

Lemma splitFrom_header (c0 : ascii) (sep' h tail cur : string) :
  separatorFree (String c0 sep') h = true ->
  Bytes.splitFrom (String c0 sep') (h ++ String c0 sep' ++ tail) O cur
  = (cur ++ h) :: Bytes.splitFrom (String c0 sep') tail O EmptyString.
Proof.
  set (sep := String c0 sep').
  revert cur. induction h as [| c h IH]; intros cur Hfree.
  - rewrite append_nil_r.
    change (EmptyString ++ sep ++ tail) with (String c0 (sep' ++ tail)).
    cbn [Bytes.splitFrom].
    change (String c0 (sep' ++ tail)) with (sep ++ tail).
    rewrite prefix_app_self.
    change (String.length sep - 1)%nat with (String.length sep' - 0)%nat.
    rewrite Nat.sub_0_r, splitFrom_skip. reflexivity.
  - cbn [separatorFree] in Hfree. apply andb_true_iff in Hfree as [Hhere Hrest].
    apply negb_true_iff in Hhere.
    change (String c h ++ sep ++ tail) with (String c (h ++ sep ++ tail)).
    cbn [Bytes.splitFrom].
    change (String c (h ++ sep ++ tail)) with (String c h ++ sep ++ tail).
    rewrite <- append_assoc.
    rewrite prefix_app_long
      by (rewrite length_append; lia).
    rewrite Hhere.
    rewrite (IH (cur ++ String c EmptyString) Hrest).
    rewrite append_assoc. reflexivity.
Qed.

Lemma splitFrom_no_separator (c0 : ascii) (sep' s cur : string) :
  Bytes.Contains s (String c0 sep') = false ->
  Bytes.splitFrom (String c0 sep') s O cur = [cur ++ s].
Proof.
  revert cur. induction s as [| c s IH]; intros cur Hno.
  - rewrite append_nil_r. reflexivity.
  - cbn [Bytes.Contains] in Hno. cbn [Bytes.splitFrom].
    destruct (prefix (String c0 sep') (String c s)); [discriminate |].
    rewrite (IH _ Hno), append_assoc. reflexivity.
Qed.

(** A frame made of a header block, one blank line and a body is cut
    where the blank line is. *)
Lemma headerBlock_textFrame (headers body : string) :
  separatorFree (CRLF ++ CRLF) headers = true ->
  headerBlock (textFrame headers body) = Some headers.
Proof.
  intros Hfree. unfold headerBlock, textFrame, Bytes.Split.
  change (CRLF ++ CRLF) with (String "013" (String "010" CRLF)) in *.
  change (headers ++ CRLF ++ CRLF ++ body)
    with (headers ++ String "013" (String "010" CRLF) ++ body).
  rewrite (splitFrom_header _ _ headers body EmptyString Hfree).
  destruct (splitFrom_nonempty (String "013" (String "010" CRLF)) body O EmptyString)
    as (piece & pieces & ->).
  reflexivity.
Qed.

Lemma split_textFrame (headers body : string) :
  separatorFree (CRLF ++ CRLF) headers = true ->
  Bytes.Contains body (CRLF ++ CRLF) = false ->
  Bytes.Split (textFrame headers body) (CRLF ++ CRLF) = [headers; body].
Proof.
  intros Hfree Hbody. unfold textFrame, Bytes.Split.
  change (CRLF ++ CRLF) with (String "013" (String "010" CRLF)) in *.
  change (headers ++ CRLF ++ CRLF ++ body)
    with (headers ++ String "013" (String "010" CRLF) ++ body).
  rewrite (splitFrom_header _ _ headers body EmptyString Hfree).
  rewrite (splitFrom_no_separator _ _ body EmptyString Hbody).
  reflexivity.
Qed.

(** The message types the service sends besides the final phrase: a frame
    announcing one of them is dropped, whatever follows its header. *)
Lemma known_other_paths_are_dropped
    (unmarshal : string -> option SpeechResultMessage)
    (p body : string) (a : Service) :
  In p [AudioMessageType; SpeechMessageType; SpeechStartedType;
        SpeechHypothesisType; TurnEndType] ->
  headerBlock (textFrame ("Path:" ++ p) body) = Some ("Path:" ++ p) /\
  spec_pathField ("Path:" ++ p) = Some p /\
  handleTextMessage unmarshal (textFrame ("Path:" ++ p) body) a = Done (tt, a, []).
Proof.
  intros Hin. simpl in Hin.
  assert (Hblock : headerBlock (textFrame ("Path:" ++ p) body) = Some ("Path:" ++ p)).
  { apply headerBlock_textFrame.
    destruct Hin as [<- | [<- | [<- | [<- | [<- | []]]]]]; vm_compute; reflexivity. }
  split; [exact Hblock |]. split.
  - destruct Hin as [<- | [<- | [<- | [<- | [<- | []]]]]]; vm_compute; reflexivity.
  - apply (text_without_marker unmarshal _ _ a Hblock).
    destruct Hin as [<- | [<- | [<- | [<- | [<- | []]]]]]; vm_compute; reflexivity.
Qed.

(** A final-phrase frame as the service sends it: header lines, one blank
    line, a JSON body without a blank line in it. *)
Lemma final_phrase_frame_dispatch
    (unmarshal : string -> option SpeechResultMessage)
    (headers body : string) (result : SpeechResultMessage) (a : Service) :
  separatorFree (CRLF ++ CRLF) headers = true ->
  Bytes.Contains body (CRLF ++ CRLF) = false ->
  Bytes.Contains headers "Path:speech.phrase" = true ->
  unmarshal body = Some result ->
  RecognitionStatus result = "Success" ->
  DisplayText result <> EmptyString ->
  onRecognized a = true ->
  handleTextMessage unmarshal (textFrame headers body) a
  = Done (tt, a, [EvRecognized (DisplayText result)]).
Proof.
  intros Hfree Hbody HC HU Hst Hd Hcb.
  eapply text_display_text; try eassumption.
  apply split_textFrame; assumption.
Qed.

(** ** The receive loop *)





(** ** The theorems at concrete inputs *)

Lemma start_config_send_failure_witness :
  Idle idleService /\
  exists a' tr,
    StartContinuousRecognition envWriteFails idleService
    = Done (Some (Errorf "failed to connect to WebSocket: %v"
                    (ErrorString "write: broken pipe")), a', tr) /\
    isListening a' = false /\
    isConnected a' = true /\
    conn a' = Some 7%nat /\
    closes tr = 0%nat /\
    ~ Idle a'.
Proof.
  assert (HI : Idle idleService) by (unfold Idle; simpl; auto).
  split; [exact HI |].
  apply (start_config_send_failure_keeps_connection
           envWriteFails idleService 7%nat (ErrorString "write: broken pipe") HI);
    reflexivity.
Defined.

Lemma final_phrase_dispatch_witness :
  handleTextMessage sampleUnmarshal
    (textFrame ("X-RequestId:42" ++ CRLF ++ "Path:speech.phrase") bodyDisplayText)
    sampleSession
  = Done (tt, sampleSession, [EvRecognized "Hello world."]) /\
  handleTextMessage sampleUnmarshal
    (textFrame "Path:speech.phrase" bodyNBestOnly) sampleSession
  = Done (tt, sampleSession, [EvRecognized "Hello there."]) /\
  handleTextMessage sampleUnmarshal
    (textFrame "Path:speech.phrase" bodyNoMatch) sampleSession
  = Done (tt, sampleSession, []).
Proof.
  split; [| split].
  - refine (proj1 (final_phrase_dispatch sampleUnmarshal
                     (textFrame ("X-RequestId:42" ++ CRLF ++ "Path:speech.phrase")
                        bodyDisplayText)
                     ("X-RequestId:42" ++ CRLF ++ "Path:speech.phrase")
                     bodyDisplayText []
                     (mkResult EmptyString EmptyString "Success" "Hello world."
                        EmptyString 0 0 [])
                     sampleSession _ _ _) _ _ _);
      try (vm_compute; reflexivity).
    simpl. discriminate.
  - refine (proj1 (proj2 (final_phrase_dispatch sampleUnmarshal
                     (textFrame "Path:speech.phrase" bodyNBestOnly)
                     "Path:speech.phrase" bodyNBestOnly []
                     (mkResult EmptyString EmptyString "Success" EmptyString
                        EmptyString 0 0 [mkNBest "Hello there."])
                     sampleSession _ _ _)) _ _ (mkNBest "Hello there.") [] _ _ _);
      try (vm_compute; reflexivity).
    simpl. discriminate.
  - refine (proj2 (proj2 (final_phrase_dispatch sampleUnmarshal
                     (textFrame "Path:speech.phrase" bodyNoMatch)
                     "Path:speech.phrase" bodyNoMatch []
                     (mkResult EmptyString EmptyString "NoMatch" EmptyString
                        EmptyString 0 0 [])
                     sampleSession _ _ _)) _);
      try (vm_compute; reflexivity).
    simpl. discriminate.
Defined.

Lemma frame_without_marker_witness :
  handleTextMessage sampleUnmarshal
    (textFrame ("X-RequestId:42" ++ CRLF ++ "Path:speech.hypothesis") bodyDisplayText)
    sampleSession
  = Done (tt, sampleSession, []).
Proof.
  apply (frame_without_marker_never_dispatches sampleUnmarshal).
  intros headers Hh. vm_compute in Hh. injection Hh as <-.
  vm_compute. reflexivity.
Defined.

Lemma three_flushes_then_stop_witness :
  exists sys tr,
    run sampleUnmarshal (session envOk envOk envOk envOk envOk
                           silence silence silence)
        (mkSystem idleService 0 0) = Done (sys, tr) /\
    binaryFrames tr
    = [audioMessage (requestId idleService) sampleTime (List.concat silence);
       audioMessage (requestId idleService) sampleTime (List.concat silence);
       audioMessage (requestId idleService) sampleTime (List.concat silence);
       endOfStreamMessage (requestId idleService) sampleTime] /\
    binaryFrames (beforeClose tr) = binaryFrames tr /\
    closes tr = 1%nat /\
    Idle (svc sys).
Proof.
  assert (HB : buffered silence 1600).
  { split; [| reflexivity].
    repeat constructor; intros Habs; vm_compute in Habs; discriminate. }
  apply (three_flushes_then_stop sampleUnmarshal idleService 0 0 7%nat 3%nat
           envOk envOk envOk envOk envOk silence silence silence);
    (reflexivity || exact HB).
Defined.

Lemma stop_effect_order_witness :
  isListening sampleSession = true /\
  traceOf (StopContinuousRecognition envOk sampleSession)
  = [EvSet FShuttingDown true;
     EvWriteBinary 7%nat (endOfStreamMessage (requestId sampleSession) sampleTime);
     EvStreamStop 3%nat; EvStreamClose 3%nat;
     EvConnClose 7%nat; EvSet FConnected false;
     EvSet FListening false;
     EvSet FShuttingDown false] /\
  Idle (stopped sampleSession) /\
  framePayload (endOfStreamMessage (requestId sampleSession) sampleTime) = Some [].
Proof.
  destruct (stop_effect_order envOk sampleSession eq_refl)
    as (_ & Htrace & _ & Hidle & _ & _ & _ & Hpayload).
  split; [reflexivity |].
  split; [apply (Htrace 7%nat 3%nat); reflexivity |].
  split; [exact Hidle |].
  apply Hpayload. vm_compute. discriminate.
Defined.


Lemma start_stop_idempotent_witness :
  (StartContinuousRecognition envOk sampleSession = Done (None, sampleSession, []) /\
   run sampleUnmarshal (List.map CallStart [envOk; envWriteFails; envOk])
       (mkSystem sampleSession 1 1)
   = Done (mkSystem sampleSession 1 1, [])) /\
  StopContinuousRecognition envOk idleService = Done (None, idleService, []).
Proof.
  split.
  - apply (proj1 (start_stop_idempotent sampleUnmarshal sampleSession envOk
                    [envOk; envWriteFails; envOk] 1 1)).
    reflexivity.
  - apply (proj2 (start_stop_idempotent sampleUnmarshal idleService envOk [] 0 0)).
    reflexivity.
Defined.

Lemma processAudio_division_witness :
  (exists a', processAudio [120; -340; 0] sampleSession = Done (tt, a', [])) /\
  avgAmplitude [120; -340; 0] sampleSession = Done (153, sampleSession, []) /\
  processAudio [] sampleSession = Panic DivideByZero.
Proof.
  destruct (processAudio_division_unguarded [120; -340; 0] sampleSession)
    as (Hreturns & Havg & _).
  destruct (processAudio_division_unguarded [] sampleSession)
    as (_ & _ & Hpanic).
  split; [apply Hreturns; discriminate |].
  split; [apply Havg; discriminate |].
  apply Hpanic. repeat split; reflexivity.
Defined.

Lemma processAudio_gated_witness :
  processAudio [120; -340; 0] idleService = Done (tt, idleService, []) /\
  (isListening sampleSession = true /\ isConnected sampleSession = true /\
   audioBuffer (with_audioBuffer [120; -340; 0] sampleSession)
   = (audioBuffer sampleSession ++ [120; -340; 0])%list).
Proof.
  split.
  - apply (proj1 (processAudio_gated_on_flags [120; -340; 0] idleService)).
    left. reflexivity.
  - apply (proj2 (processAudio_gated_on_flags [120; -340; 0] sampleSession)
             (with_audioBuffer [120; -340; 0] sampleSession) []).
    + reflexivity.
    + simpl. discriminate.
Defined.

(** * Further properties of the engine *)

(** ** Request identifiers *)

Arguments hexDigit : simpl never.

Lemma byte_forall (P : Z -> bool) :
  forallb P (List.map Z.of_nat (seq 0 256)) = true ->
  forall x, 0 <= x < 256 -> P x = true.
Proof.
  intros Hall x Hx. rewrite forallb_forall in Hall. apply Hall.
  rewrite <- (Z2Nat.id x) by lia. apply in_map. apply in_seq. lia.
Qed.

Lemma nibble_forall (P : Z -> bool) :
  forallb P (List.map Z.of_nat (seq 0 16)) = true ->
  forall x, 0 <= x < 16 -> P x = true.
Proof.
  intros Hall x Hx. rewrite forallb_forall in Hall. apply Hall.
  rewrite <- (Z2Nat.id x) by lia. apply in_map. apply in_seq. lia.
Qed.

Lemma hexByte_digits (b : Z) :
  0 <= b < 256 ->
  isLowerHex (hexDigit (Z.shiftr b 4)) = true /\
  isLowerHex (hexDigit (Z.land b 15)) = true.
Proof.
  intros Hb.
  pose proof (byte_forall
                (fun x => isLowerHex (hexDigit (Z.shiftr x 4))
                          && isLowerHex (hexDigit (Z.land x 15)))) as H.
  specialize (H ltac:(vm_compute; reflexivity) b Hb).
  apply andb_true_iff in H. exact H.
Qed.

Lemma version_byte (x : Z) :
  0 <= x < 256 ->
  let v := Z.lor (Z.land x 15) 64 in
  0 <= v < 256 /\ hexDigit (Z.shiftr v 4) = "4"%char.
Proof.
  intros Hx v. subst v.
  pose proof (byte_forall
                (fun x => let v := Z.lor (Z.land x 15) 64 in
                          (0 <=? v) && (v <? 256)
                          && Ascii.eqb (hexDigit (Z.shiftr v 4)) "4")) as H.
  specialize (H ltac:(vm_compute; reflexivity) x Hx). cbv zeta in H.
  apply andb_true_iff in H as [H1 H2].
  apply andb_true_iff in H1 as [H0 H1].
  apply Ascii.eqb_eq in H2. split; [lia | exact H2].
Qed.

Lemma variant_byte (x : Z) :
  0 <= x < 256 ->
  let v := Z.lor (Z.land x 63) 128 in
  0 <= v < 256 /\
  In (hexDigit (Z.shiftr v 4)) ["8"; "9"; "a"; "b"]%char.
Proof.
  intros Hx v. subst v.
  pose proof (byte_forall
                (fun x => let v := Z.lor (Z.land x 63) 128 in
                          (0 <=? v) && (v <? 256)
                          && existsb (Ascii.eqb (hexDigit (Z.shiftr v 4)))
                               ["8"; "9"; "a"; "b"]%char)) as H.
  specialize (H ltac:(vm_compute; reflexivity) x Hx). cbv zeta in H.
  apply andb_true_iff in H as [H1 H2].
  apply andb_true_iff in H1 as [H0 H1].
  split; [lia |].
  apply existsb_exists in H2 as (c & Hin & Heq).
  apply Ascii.eqb_eq in Heq. rewrite Heq. exact Hin.
Qed.

Ltac hex_char_goal :=
  match goal with
  | |- isLowerHex (hexDigit (Z.shiftr ?b 4)) = true =>
      refine (proj1 (hexByte_digits b _)); assumption
  | |- isLowerHex (hexDigit (Z.land ?b 15)) = true =>
      refine (proj2 (hexByte_digits b _)); assumption
  end.

(** X1. Whatever the 16 random bytes, [generateRequestId] returns a
    version-4 UUID in its textual form: 36 characters, dashes after 8, 12,
    16 and 20 digits, the version digit [4], a variant digit among [8], [9],
    [a], [b], and lower-case hexadecimal digits everywhere else. *)
Theorem generateRequestId_is_uuid_v4 (b : list Z) :
  List.length b = 16%nat ->
  Forall (fun x => 0 <= x < 256) b ->
  String.length (generateRequestId b) = 36%nat /\
  (forall i, In i [8; 13; 18; 23]%nat ->
             String.get i (generateRequestId b) = Some "-"%char) /\
  String.get 14 (generateRequestId b) = Some "4"%char /\
  (exists c, String.get 19 (generateRequestId b) = Some c /\
             In c ["8"; "9"; "a"; "b"]%char) /\
  (forall i c, String.get i (generateRequestId b) = Some c ->
               ~ In i [8; 13; 18; 23]%nat -> isLowerHex c = true).
Proof.
  intros Hlen Hall.
  do 16 (destruct b as [| ? b]; [discriminate |]).
  destruct b; [| discriminate]. clear Hlen.
  repeat match goal with
         | H : Forall _ (_ :: _) |- _ => inversion H; subst; clear H
         | H : Forall _ [] |- _ => clear H
         end.
  cbn [generateRequestId setAt slice firstn skipn nth app hex hexByte
         append Nat.sub].
  match goal with
  | |- context [Z.lor (Z.land ?x 15) 64] =>
      destruct (version_byte x ltac:(assumption)) as [Hv6 Hversion]
  end.
  match goal with
  | |- context [Z.lor (Z.land ?x 63) 128] =>
      destruct (variant_byte x ltac:(assumption)) as [Hv8 Hvariant]
  end.
  cbv zeta in Hv6, Hversion, Hv8, Hvariant.
  split; [reflexivity |].
  split.
  { intros i [<- | [<- | [<- | [<- | []]]]]; reflexivity. }
  split.
  { cbn [String.get]. rewrite Hversion. reflexivity. }
  split.
  { cbn [String.get]. eexists. split; [reflexivity | exact Hvariant]. }
  intros i c Hget Hdash.
  do 36 (destruct i as [| i];
         [cbn [String.get] in Hget; injection Hget as <-;
          first [hex_char_goal | exfalso; apply Hdash; simpl; tauto] |]).
  cbn [String.get] in Hget. destruct i; discriminate.
Qed.

Lemma generateRequestId_witness :
  generateRequestId (List.repeat 255 16) = "ffffffff-ffff-4fff-bfff-ffffffffffff" /\
  String.length (generateRequestId (List.repeat 0 16)) = 36%nat /\
  String.get 14 (generateRequestId (List.repeat 0 16)) = Some "4"%char.
Proof.
  assert (H0 : Forall (fun x => 0 <= x < 256) (List.repeat 0 16))
    by (repeat constructor; lia).
  destruct (generateRequestId_is_uuid_v4 (List.repeat 0 16) eq_refl H0)
    as (Hlen & _ & Hver & _).
  split; [vm_compute; reflexivity |].
  split; assumption.
Defined.

(** ** The layout of an audio frame *)

Lemma bytes_of_string_length (s : string) :
  List.length (Wire.bytes_of_string s) = String.length s.
Proof.
  unfold Wire.bytes_of_string. rewrite length_map.
  induction s as [| c s IH]; simpl; [| rewrite IH]; reflexivity.
Qed.

Lemma audioHeaders_length (reqId ts : string) :
  String.length (audioHeaders reqId ts)
  = (42 + String.length reqId + String.length ts)%nat.
Proof.
  unfold audioHeaders. repeat rewrite length_append. simpl. lia.
Qed.

Lemma audioBytes_range (audioData : list Z) :
  Forall (fun b => 0 <= b < 256) (audioBytes audioData).
Proof.
  induction audioData as [| x xs IH]; simpl; [constructor |].
  constructor; [apply byte_range |].
  constructor; [apply byte_range | exact IH].
Qed.

Lemma LittleEndian_roundtrip (v : Z) :
  0 <= v < 65536 ->
  LittleEndian_Uint16 (Wire.LittleEndian_PutUint16 v) = Some v.
Proof.
  intros H. unfold Wire.LittleEndian_PutUint16, LittleEndian_Uint16.
  rewrite high_byte_spec by exact H.
  assert (Hhi : 0 <= v / 256 < 256).
  { split; [apply Z.div_pos; lia | apply Z.div_lt_upper_bound; lia]. }
  pose proof (byte_range v) as Hlo.
  rewrite (uint16_small (Wire.byte v)) by lia.
  rewrite (uint16_small (v / 256)) by lia.
  rewrite Z.shiftl_mul_pow2 by lia. change (2 ^ 8) with 256.
  rewrite (uint16_small (v / 256 * 256)) by lia.
  replace (v / 256 * 256) with (Z.shiftl (v / 256) 8)
    by (rewrite Z.shiftl_mul_pow2 by lia; reflexivity).
  rewrite lor_disjoint_bytes by lia.
  unfold Wire.byte. f_equal.
  pose proof (Z.div_mod v 256). lia.
Qed.

Lemma int16_uint16 (s : Z) : isInt16 s -> Wire.int16 (Wire.uint16 s) = s.
Proof.
  unfold isInt16, Wire.int16, Wire.uint16. intros H.
  Z.div_mod_to_equations. lia.
Qed.

Lemma decodePCM_audioBytes (audioData : list Z) :
  Forall isInt16 audioData -> decodePCM (audioBytes audioData) = audioData.
Proof.
  induction 1 as [| s rest Hs Hrest IH]; [reflexivity |].
  change (audioBytes (s :: rest))
    with (Wire.LittleEndian_PutUint16 (Wire.uint16 s) ++ audioBytes rest)%list.
  assert (Hu : 0 <= Wire.uint16 s < 65536)
    by (unfold Wire.uint16; apply Z.mod_pos_bound; lia).
  pose proof (LittleEndian_roundtrip _ Hu) as Hrt.
  unfold Wire.LittleEndian_PutUint16 in *.
  cbn [app decodePCM]. rewrite Hrt, IH, int16_uint16 by exact Hs.
  reflexivity.
Qed.

Lemma frameHeader_audioMessage (reqId ts : string) (audioData : list Z) :
  Wire.len (Wire.bytes_of_string (audioHeaders reqId ts)) <= 65535 ->
  frameHeader (audioMessage reqId ts audioData)
  = Some (Wire.bytes_of_string (audioHeaders reqId ts)).
Proof.
  intros Hlen. unfold frameHeader.
  rewrite audioMessage_header_length by exact Hlen.
  unfold audioMessage.
  set (h := Wire.bytes_of_string (audioHeaders reqId ts)) in *.
  unfold Wire.len. rewrite Nat2Z.id.
  change (skipn 2 (Wire.BigEndian_PutUint16 (Wire.uint16 (Z.of_nat (Datatypes.length h)))
                   ++ h ++ audioBytes audioData)%list)
    with (h ++ audioBytes audioData)%list.
  rewrite firstn_app, firstn_all, Nat.sub_diag. simpl.
  rewrite app_nil_r. reflexivity.
Qed.

Lemma audio_frame_layout_aux (reqId ts : string) (audioData : list Z) :
  Z.of_nat (String.length reqId + String.length ts) <= 65493 ->
  framePayload (audioMessage reqId ts audioData) = Some (audioBytes audioData).
Proof.
  intros Hfit. apply framePayload_audioMessage.
  unfold Wire.len. rewrite bytes_of_string_length, audioHeaders_length. lia.
Qed.

(** X2. An audio frame built by [sendAudioChunk] is the two-byte prefix,
    a header block of [42 + len(requestId) + len(timestamp)] bytes and two
    bytes per sample, in that order; as long as the header block fits the
    16-bit prefix, taking the frame apart by the prefix gives back exactly
    the header block and the payload, and the payload is empty only for an
    empty chunk. *)
Theorem audio_frame_layout (reqId ts : string) (audioData : list Z) :
  Z.of_nat (String.length reqId + String.length ts) <= 65493 ->
  List.length (audioMessage reqId ts audioData)
  = (2 + (42 + String.length reqId + String.length ts)
     + 2 * List.length audioData)%nat /\
  frameHeaderLength (audioMessage reqId ts audioData)
  = Some (Z.of_nat (42 + String.length reqId + String.length ts)) /\
  frameHeader (audioMessage reqId ts audioData)
  = Some (Wire.bytes_of_string (audioHeaders reqId ts)) /\
  framePayload (audioMessage reqId ts audioData) = Some (audioBytes audioData) /\
  (framePayload (audioMessage reqId ts audioData) = Some [] <-> audioData = []).
Proof.
  intros Hfit.
  assert (Hh : Wire.len (Wire.bytes_of_string (audioHeaders reqId ts))
               = Z.of_nat (42 + String.length reqId + String.length ts)).
  { unfold Wire.len. rewrite bytes_of_string_length, audioHeaders_length.
    reflexivity. }
  assert (Hlen : Wire.len (Wire.bytes_of_string (audioHeaders reqId ts)) <= 65535)
    by (rewrite Hh; lia).
  split.
  { unfold audioMessage, Wire.BigEndian_PutUint16.
    cbn [app List.length]. rewrite length_app, bytes_of_string_length,
      audioHeaders_length, audioBytes_length. lia. }
  split; [rewrite <- Hh; apply audioMessage_header_length; exact Hlen |].
  split; [apply frameHeader_audioMessage; exact Hlen |].
  rewrite framePayload_audioMessage by exact Hlen.
  split; [reflexivity |].
  split.
  - intros [= Hempty]. destruct audioData as [| x xs]; [reflexivity |].
    discriminate.
  - intros ->. reflexivity.
Qed.

Lemma audio_frame_layout_witness :
  List.length (audioMessage (requestId idleService) sampleTime [0; -1; 32767])
  = 110%nat /\
  frameHeaderLength (audioMessage (requestId idleService) sampleTime [0; -1; 32767])
  = Some 102 /\
  framePayload (audioMessage (requestId idleService) sampleTime [0; -1; 32767])
  = Some [0; 0; 255; 255; 255; 127].
Proof.
  destruct (audio_frame_layout (requestId idleService) sampleTime [0; -1; 32767])
    as (Hlen & Hprefix & _ & Hpayload & _).
  - vm_compute. discriminate.
  - split; [exact Hlen |]. split; [exact Hprefix | exact Hpayload].
Defined.

(** X3. The payload of an audio frame is 16-bit little-endian PCM: every
    byte is in range, and reading the pairs back gives the samples that
    were buffered, in order. *)
Theorem pcm_payload_roundtrip (reqId ts : string) (audioData : list Z) :
  Forall isInt16 audioData ->
  Forall (fun b => 0 <= b < 256) (audioBytes audioData) /\
  decodePCM (audioBytes audioData) = audioData /\
  (Z.of_nat (String.length reqId + String.length ts) <= 65493 ->
   option_map decodePCM (framePayload (audioMessage reqId ts audioData))
   = Some audioData).
Proof.
  intros Hsamples.
  split; [apply audioBytes_range |].
  split; [apply decodePCM_audioBytes; exact Hsamples |].
  intros Hfit.
  rewrite (audio_frame_layout_aux reqId ts audioData Hfit). simpl. rewrite decodePCM_audioBytes by exact Hsamples.
  reflexivity.
Qed.

Lemma pcm_payload_roundtrip_witness :
  decodePCM (audioBytes [0; -1; 32767; -32768]) = [0; -1; 32767; -32768] /\
  option_map decodePCM
    (framePayload (audioMessage (requestId idleService) sampleTime
                     [0; -1; 32767; -32768]))
  = Some [0; -1; 32767; -32768].
Proof.
  assert (Hs : Forall isInt16 [0; -1; 32767; -32768])
    by (repeat constructor; unfold isInt16; lia).
  destruct (pcm_payload_roundtrip (requestId idleService) sampleTime _ Hs)
    as (_ & Hdecode & Hframe).
  split; [exact Hdecode |].
  apply Hframe. vm_compute. discriminate.
Defined.

(** ** What the demultiplexer never does *)

Lemma handleTextMessage_shape
    (unmarshal : string -> option SpeechResultMessage)
    (data : string) (a : Service) :
  handleTextMessage unmarshal data a = Done (tt, a, []) \/
  exists text,
    text <> EmptyString /\ onRecognized a = true /\
    handleTextMessage unmarshal data a = Done (tt, a, [EvRecognized text]).
Proof.
  unfold handleTextMessage.
  destruct (Bytes.Split data (CRLF ++ CRLF)) as [| headers [| body rest]];
    try (left; reflexivity).
  destruct (Bytes.Contains headers "Path:speech.phrase");
    [| left; reflexivity].
  destruct (unmarshal body) as [result |]; [| left; reflexivity].
  destruct (String.eqb (RecognitionStatus result) "Success");
    [| left; reflexivity].
  match goal with
  | |- context [if negb (String.eqb ?t EmptyString) then _ else _] =>
      destruct (String.eqb t EmptyString) eqn:Hempty
  end.
  - left. reflexivity.
  - cbn [negb]. unfold bind, get. cbv beta iota.
    destruct (onRecognized a) eqn:Hcb; [| left; reflexivity].
    right. eexists. split; [| split; [reflexivity | reflexivity]].
    apply String.eqb_neq. exact Hempty.
Qed.

(** X4. Whatever the frame and whatever the decoder returns,
    [handleTextMessage] returns without a panic, leaves the service as it
    was, and performs at most one effect: one call of the registered
    recognized-text callback, with a text that is not empty.  It never
    invokes the error callback. *)
Theorem handleTextMessage_effects
    (unmarshal : string -> option SpeechResultMessage)
    (data : string) (a : Service) :
  exists tr,
    handleTextMessage unmarshal data a = Done (tt, a, tr) /\
    errorCalls tr = [] /\
    (tr = [] \/
     exists text, tr = [EvRecognized text] /\ text <> EmptyString /\
                  onRecognized a = true).
Proof.
  destruct (handleTextMessage_shape unmarshal data a)
    as [H | (text & Hne & Hcb & H)]; rewrite H.
  - exists []. auto.
  - exists [EvRecognized text]. split; [reflexivity |].
    split; [reflexivity |]. right. eauto.
Qed.

Lemma prefix_app (p u t : string) :
  prefix p u = true -> prefix p (u ++ t) = true.
Proof.
  revert u. induction p as [| a p IH]; intros u Hp.
  - apply prefix_nil.
  - destruct u as [| b u]; [discriminate |].
    simpl in *. destruct (ascii_dec a b); [apply IH; exact Hp | discriminate].
Qed.

Lemma separatorFree_no_separator (c0 : ascii) (sep' s : string) :
  separatorFree (String c0 sep') s = true ->
  Bytes.Contains s (String c0 sep') = false.
Proof.
  induction s as [| c s IH]; intros Hfree.
  - reflexivity.
  - cbn [separatorFree] in Hfree.
    apply andb_true_iff in Hfree as [Hhere Hrest].
    apply negb_true_iff in Hhere.
    cbn [Bytes.Contains].
    destruct (prefix (String c0 sep') (String c s)) eqn:Hp.
    + rewrite (prefix_app _ _ (String c0 sep') Hp) in Hhere. discriminate.
    + apply IH. exact Hrest.
Qed.

(** X5. Only the text between the first and the second blank line of a
    frame is decoded: whatever follows a second blank line has no
    influence on what [handleTextMessage] does. *)
Theorem text_after_second_blank_line_is_ignored
    (unmarshal : string -> option SpeechResultMessage)
    (headers body tail : string) (a : Service) :
  separatorFree (CRLF ++ CRLF) headers = true ->
  separatorFree (CRLF ++ CRLF) body = true ->
  Bytes.Split (textFrame headers (textFrame body tail)) (CRLF ++ CRLF)
  = headers :: body :: Bytes.Split tail (CRLF ++ CRLF) /\
  handleTextMessage unmarshal (textFrame headers (textFrame body tail)) a
  = handleTextMessage unmarshal (textFrame headers body) a.
Proof.
  intros Hh Hb.
  assert (Hlong : Bytes.Split (textFrame headers (textFrame body tail)) (CRLF ++ CRLF)
                  = headers :: body :: Bytes.Split tail (CRLF ++ CRLF)).
  { unfold textFrame, Bytes.Split.
    change (CRLF ++ CRLF) with (String "013" (String "010" CRLF)) in *.
    change (headers ++ CRLF ++ CRLF ++ body ++ CRLF ++ CRLF ++ tail)
      with (headers ++ String "013" (String "010" CRLF)
            ++ body ++ String "013" (String "010" CRLF) ++ tail).
    rewrite (splitFrom_header _ _ headers _ EmptyString Hh).
    rewrite (splitFrom_header _ _ body tail EmptyString Hb).
    reflexivity. }
  split; [exact Hlong |].
  assert (Hshort : Bytes.Split (textFrame headers body) (CRLF ++ CRLF)
                   = [headers; body]).
  { apply split_textFrame; [exact Hh |].
    change (CRLF ++ CRLF) with (String "013" (String "010" CRLF)) in *.
    apply separatorFree_no_separator. exact Hb. }
  unfold handleTextMessage. rewrite Hlong, Hshort. reflexivity.
Qed.

Lemma text_after_second_blank_line_witness :
  handleTextMessage sampleUnmarshal
    (textFrame "Path:speech.phrase"
       (textFrame bodyNoMatch bodyDisplayText)) sampleSession
  = Done (tt, sampleSession, []) /\
  handleTextMessage sampleUnmarshal
    (textFrame "Path:speech.phrase" bodyDisplayText) sampleSession
  = Done (tt, sampleSession, [EvRecognized "Hello world."]).
Proof.
  split; [| vm_compute; reflexivity].
  rewrite (proj2 (text_after_second_blank_line_is_ignored sampleUnmarshal
                    "Path:speech.phrase" bodyNoMatch bodyDisplayText
                    sampleSession eq_refl eq_refl)).
  vm_compute. reflexivity.
Defined.

(** X6. A frame that was read never ends the receive loop and never
    changes the service: the pass continues, the error callback is not
    invoked, a frame that is not textual (a binary frame or any other
    message type) has no effect at all, and a textual frame has at most the
    one effect of [handleTextMessage]. *)
Theorem received_frame_keeps_loop_running
    (unmarshal : string -> option SpeechResultMessage)
    (a : Service) (c : Conn) (messageType : Z) (data : string) :
  isConnected a = true -> conn a = Some c ->
  exists tr,
    handleWebSocketMessages_pass unmarshal (ReadMessage messageType data) a
    = Done (Continue, a, tr) /\
    errorCalls tr = [] /\
    (messageType <> TextMessage -> tr = []) /\
    (tr = [] \/
     exists text, tr = [EvRecognized text] /\ text <> EmptyString).
Proof.
  intros HC HN. unfold handleWebSocketMessages_pass, bind, get.
  rewrite HC, HN. cbn [negb].
  destruct (messageType =? TextMessage) eqn:Hmt.
  - destruct (handleTextMessage_shape unmarshal data a)
      as [H | (text & Hne & Hcb & H)]; rewrite H.
    + exists []. repeat split; auto.
    + exists [EvRecognized text]. split; [reflexivity |].
      split; [reflexivity |]. split.
      * intros Hneq. apply Z.eqb_eq in Hmt. contradiction.
      * right. eauto.
  - exists []. repeat split; auto.
Qed.

Lemma received_frame_witness :
  handleWebSocketMessages_pass sampleUnmarshal
    (ReadMessage BinaryMessage "anything") sampleSession
  = Done (Continue, sampleSession, []) /\
  handleWebSocketMessages_pass sampleUnmarshal
    (ReadMessage TextMessage (textFrame "Path:speech.phrase" bodyDisplayText))
    sampleSession
  = Done (Continue, sampleSession, [EvRecognized "Hello world."]).
Proof.
  destruct (received_frame_keeps_loop_running sampleUnmarshal sampleSession
              7%nat BinaryMessage "anything" eq_refl eq_refl)
    as (tr & Hrun & _ & Hnone & _).
  split; [| vm_compute; reflexivity].
  rewrite Hrun, Hnone; [reflexivity | discriminate].
Defined.

(** ** What a start can return *)

Ltac split_service a :=
  destruct a as [k r l cn ic il sd st buf onr one sr ch fpb rid cid].

Ltac split_env env :=
  destruct env as [ts dr wr orr srr fid].

(** X7. A start never panics.  It returns success exactly when the
    service is listening afterwards; it starts the two background tasks
    exactly when it took the service from not listening to listening, and
    never more than one of each; it invokes no callback; and it dials at
    most once, not at all when the service was already listening. *)
Theorem start_outcome (env : Env) (a : Service) :
  exists res a' tr,
    StartContinuousRecognition env a = Done (res, a', tr) /\
    (res = None <-> isListening a' = true) /\
    started RecvTask tr = started FlushTask tr /\
    (started FlushTask tr = 1%nat <-> isListening a = false /\ res = None) /\
    (started FlushTask tr <= 1)%nat /\
    errorCalls tr = [] /\ recognizedCalls tr = [] /\
    (dials tr <= 1)%nat /\
    (isListening a = true -> dials tr = 0%nat) /\
    sameIdentity a a'.
Proof.
  split_service a. split_env env.
  destruct il; [| destruct dr as [c | e]; [destruct wr as [e |];
    [| destruct orr as [s | e]; [destruct srr as [e |] |]] |]];
    do 3 eexists; (split; [run_method; reflexivity |]);
    unfold started, sameIdentity; simpl;
    repeat split; intros; try reflexivity; try lia; try discriminate;
    try (destruct H; discriminate); auto.
Qed.

(** ** What every method keeps *)

Ltac solve_wellFormed :=
  unfold keepsWellFormed, wellFormed, sameIdentity in *; simpl in *;
  repeat split; intros; try reflexivity; try discriminate; try congruence;
  try tauto;
  repeat match goal with
         | H : _ /\ _ |- _ => destruct H
         | H : _ <-> _ |- _ => destruct H
         end;
  try congruence; try tauto; auto.

Lemma sameIdentity_refl (a : Service) : sameIdentity a a.
Proof. unfold sameIdentity. repeat split. Qed.

Lemma sameIdentity_trans (a b c : Service) :
  sameIdentity a b -> sameIdentity b c -> sameIdentity a c.
Proof. unfold sameIdentity. intuition congruence. Qed.

Lemma start_keeps (env : Env) (a : Service) :
  wellFormed a -> keepsWellFormed a (StartContinuousRecognition env a).
Proof.
  intros HW. split_service a. split_env env.
  destruct il, st as [s0 |]; try (exfalso; solve_wellFormed; fail);
    destruct dr as [c | e]; try destruct wr as [e |];
    try destruct orr as [s | e]; try destruct srr as [e |];
    run_method; solve_wellFormed.
Qed.

Lemma stop_keeps (env : Env) (a : Service) :
  wellFormed a -> keepsWellFormed a (StopContinuousRecognition env a).
Proof.
  intros HW. split_service a.
  destruct il, ic, cn as [c |], st as [s |]; run_method; solve_wellFormed.
Qed.

Lemma testConnection_keeps (env : Env) (a : Service) :
  wellFormed a -> keepsWellFormed a (TestConnection env a).
Proof.
  intros HW. split_service a. split_env env.
  unfold TestConnection.
  destruct dr as [c | e]; try destruct wr as [e |];
    run_method; solve_wellFormed.
Qed.

Lemma close_keeps (env : Env) (a : Service) :
  wellFormed a -> keepsWellFormed a (Close env a).
Proof.
  intros HW. split_service a. unfold Close.
  destruct il, ic, cn as [c |], st as [s |]; run_method; solve_wellFormed.
Qed.

Lemma setCallbacks_keeps (rec err : bool) (a : Service) :
  wellFormed a -> keepsWellFormed a (SetCallbacks rec err a).
Proof. intros HW. split_service a. unfold SetCallbacks, modify. solve_wellFormed. Qed.

Lemma tick_keeps (env : Env) (a : Service) :
  wellFormed a -> keepsWellFormed a (handleAudioStreaming_tick env a).
Proof.
  intros HW. split_service a. split_env env.
  destruct il, ic, cn as [c |], buf as [| x xs], wr as [e |], one;
    try (exfalso; solve_wellFormed; fail);
    run_method; solve_wellFormed.
Qed.

Lemma timeout_keeps (env : Env) (a : Service) :
  wellFormed a -> keepsWellFormed a (handleAudioStreaming_timeout env a).
Proof.
  intros HW. split_service a.
  destruct il, ic, cn as [c |], st as [s |]; run_method; solve_wellFormed.
Qed.

Lemma pass_keeps (unmarshal : string -> option SpeechResultMessage)
    (r : ReadResult) (a : Service) :
  wellFormed a -> keepsWellFormed a (handleWebSocketMessages_pass unmarshal r a).
Proof.
  intros HW. unfold handleWebSocketMessages_pass, bind, get.
  destruct (isConnected a) eqn:HC; cbn [negb].
  - destruct (conn a) as [c |] eqn:HN; [| exfalso; destruct HW as [H _]; apply (H HC); exact HN].
    destruct r as [err | messageType data].
    + destruct (negb (isShuttingDown a)
                && negb (IsCloseError err [CloseNormalClosure; CloseGoingAway]));
        [destruct (onError a) |]; simpl;
        (split; [exact HW | apply sameIdentity_refl]).
    + destruct (messageType =? TextMessage).
      * destruct (handleTextMessage_shape unmarshal data a)
          as [H | (text & _ & _ & H)]; rewrite H; simpl;
          (split; [exact HW | apply sameIdentity_refl]).
      * simpl. split; [exact HW | apply sameIdentity_refl].
  - simpl. split; [exact HW | apply sameIdentity_refl].
Qed.

Lemma processAudio_keeps (input : list Z) (a : Service) :
  wellFormed a ->
  match processAudio input a with
  | Done (_, a', _) => wellFormed a' /\ sameIdentity a a'
  | Panic p => p = DivideByZero /\ input = []
  end.
Proof.
  intros HW.
  destruct (isListening a) eqn:HL; [destruct (isConnected a) eqn:HC |].
  - destruct input as [| x xs].
    + rewrite processAudio_gate_open_empty by assumption. auto.
    + rewrite processAudio_gate_open by (assumption || discriminate).
      split; [exact HW | unfold sameIdentity; simpl; repeat split].
  - rewrite processAudio_gate_closed by (right; exact HC).
    split; [exact HW | apply sameIdentity_refl].
  - rewrite processAudio_gate_closed by (left; exact HL).
    split; [exact HW | apply sameIdentity_refl].
Qed.

Lemma onService_keeps {A : Type} (m : M A) (sys : System) :
  keepsWellFormed (svc sys) (m (svc sys)) ->
  forall call,
    match onService m sys with
    | Done (sys', _) => wellFormed (svc sys') /\ sameIdentity (svc sys) (svc sys')
    | Panic p => p = DivideByZero /\ emptyAudio call
    end.
Proof.
  intros H call. unfold onService.
  destruct (m (svc sys)) as [[[res a'] tr] | p]; [exact H | destruct H].
Qed.

Lemma stepCall_keeps (unmarshal : string -> option SpeechResultMessage)
    (call : Call) (sys : System) :
  wellFormed (svc sys) ->
  match stepCall unmarshal call sys with
  | Done (sys', _) => wellFormed (svc sys') /\ sameIdentity (svc sys) (svc sys')
  | Panic p => p = DivideByZero /\ emptyAudio call
  end.
Proof.
  intros HW.
  assert (Hsame : wellFormed (svc sys) /\ sameIdentity (svc sys) (svc sys))
    by (split; [exact HW | apply sameIdentity_refl]).
  destruct call as [[env | env | input | env | env | r] | env | env | rec err];
    cbn [stepCall step].
  - pose proof (start_keeps env _ HW) as H.
    destruct (StartContinuousRecognition env (svc sys)) as [[[res a'] tr] | p];
      [exact H | destruct H].
  - pose proof (stop_keeps env _ HW) as H.
    destruct (StopContinuousRecognition env (svc sys)) as [[[res a'] tr] | p];
      [exact H | destruct H].
  - destruct (stream (svc sys)); [| exact Hsame].
    pose proof (processAudio_keeps input _ HW) as H.
    destruct (processAudio input (svc sys)) as [[[res a'] tr] | p];
      [exact H |].
    destruct H as [-> ->]. split; reflexivity.
  - destruct (flushTasks sys); [exact Hsame |].
    pose proof (tick_keeps env _ HW) as H.
    destruct (handleAudioStreaming_tick env (svc sys)) as [[[res a'] tr] | p];
      [exact H | destruct H].
  - destruct (flushTasks sys); [exact Hsame |].
    pose proof (timeout_keeps env _ HW) as H.
    destruct (handleAudioStreaming_timeout env (svc sys)) as [[[res a'] tr] | p];
      [exact H | destruct H].
  - destruct (recvTasks sys); [exact Hsame |].
    pose proof (pass_keeps unmarshal r _ HW) as H.
    destruct (handleWebSocketMessages_pass unmarshal r (svc sys))
      as [[[res a'] tr] | p]; [exact H | destruct H].
  - apply onService_keeps. apply testConnection_keeps. exact HW.
  - apply onService_keeps. apply close_keeps. exact HW.
  - apply onService_keeps. apply setCallbacks_keeps. exact HW.
Qed.

Lemma runCalls_keeps (unmarshal : string -> option SpeechResultMessage)
    (calls : list Call) (sys : System) :
  wellFormed (svc sys) ->
  match runCalls unmarshal calls sys with
  | Done (sys', _) => wellFormed (svc sys') /\ sameIdentity (svc sys) (svc sys')
  | Panic p => p = DivideByZero /\ Exists emptyAudio calls
  end.
Proof.
  revert sys. induction calls as [| call rest IH]; intros sys HW.
  - simpl. split; [exact HW | apply sameIdentity_refl].
  - cbn [runCalls].
    pose proof (stepCall_keeps unmarshal call sys HW) as Hstep.
    destruct (stepCall unmarshal call sys) as [[sys1 t1] | p].
    + destruct Hstep as [HW1 Hid1].
      specialize (IH sys1 HW1).
      destruct (runCalls unmarshal rest sys1) as [[sys2 t2] | p].
      * destruct IH as [HW2 Hid2].
        split; [exact HW2 | eapply sameIdentity_trans; eassumption].
      * destruct IH as [-> Hex]. split; [reflexivity | right; exact Hex].
    + destruct Hstep as [-> Hempty]. split; [reflexivity | left; exact Hempty].
Qed.

Lemma new_service_wellFormed (key reg lang id : string) :
  wellFormed (NewAzureWebSocketSpeechService key reg lang id).
Proof. unfold wellFormed. simpl. split; [discriminate |]. split; intros H; [discriminate | contradiction]. Qed.



(** X9. From a new service on, after any run of calls that returns, the
    audio device is open exactly when the service is listening (no failed
    start and no stop leaves a device behind), and a set connected flag
    always comes with a connection handle. *)
Theorem device_open_iff_listening
    (unmarshal : string -> option SpeechResultMessage)
    (calls : list Call) (key reg lang id : string)
    (sys : System) (tr : list Event) :
  runCalls unmarshal calls (newSystem key reg lang id) = Done (sys, tr) ->
  (isListening (svc sys) = true <-> stream (svc sys) <> None) /\
  (isConnected (svc sys) = true -> conn (svc sys) <> None).
Proof.
  intros Hrun.
  pose proof (runCalls_keeps unmarshal calls (newSystem key reg lang id)
                (new_service_wellFormed key reg lang id)) as H.
  rewrite Hrun in H. destruct H as [[Hconn Hdev] _]. split; assumption.
Qed.

Lemma device_open_iff_listening_witness :
  exists sys tr,
    runCalls sampleUnmarshal
      [Engine (CallStart envWriteFails); Engine (CallStart envOk)]
      (newSystem "key" "westeurope" "en-US" "id") = Done (sys, tr) /\
    (isListening (svc sys) = true <-> stream (svc sys) <> None) /\
    (isConnected (svc sys) = true -> conn (svc sys) <> None).
Proof.
  destruct (runCalls sampleUnmarshal
              [Engine (CallStart envWriteFails); Engine (CallStart envOk)]
              (newSystem "key" "westeurope" "en-US" "id"))
    as [[sys tr] | p] eqn:Hrun.
  - exists sys, tr. split; [reflexivity |].
    exact (device_open_iff_listening _ _ _ _ _ _ _ _ Hrun).
  - vm_compute in Hrun. discriminate.
Defined.

(** X10. The request identifier is assigned once, when the service is
    built: no call ever changes it, nor the key, region, language or audio
    settings.  Every session of one service, and every frame it sends,
    carries the same request identifier. *)
Theorem request_id_is_never_reassigned
    (unmarshal : string -> option SpeechResultMessage)
    (calls : list Call) (key reg lang id : string)
    (sys : System) (tr : list Event) :
  runCalls unmarshal calls (newSystem key reg lang id) = Done (sys, tr) ->
  requestId (svc sys) = id /\
  subscriptionKey (svc sys) = key /\ region (svc sys) = reg /\
  language (svc sys) = lang /\
  sampleRate (svc sys) = SampleRate /\ channels (svc sys) = Channels /\
  framesPerBuffer (svc sys) = FramesPerBuffer.
Proof.
  intros Hrun.
  pose proof (runCalls_keeps unmarshal calls (newSystem key reg lang id)
                (new_service_wellFormed key reg lang id)) as H.
  rewrite Hrun in H. destruct H as [_ Hid].
  unfold sameIdentity in Hid. simpl in Hid. exact Hid.
Qed.

Lemma request_id_witness :
  exists sys tr,
    runCalls sampleUnmarshal
      [Engine (CallStart envOk); Engine (CallStop envOk); Engine (CallStart envOk)]
      (newSystem "key" "westeurope" "en-US" "id") = Done (sys, tr) /\
    requestId (svc sys) = "id".
Proof.
  destruct (runCalls sampleUnmarshal
              [Engine (CallStart envOk); Engine (CallStop envOk); Engine (CallStart envOk)]
              (newSystem "key" "westeurope" "en-US" "id"))
    as [[sys tr] | p] eqn:Hrun.
  - exists sys, tr. split; [reflexivity |].
    exact (proj1 (request_id_is_never_reassigned _ _ _ _ _ _ _ _ Hrun)).
  - vm_compute in Hrun. discriminate.
Defined.

(** ** The flush task and the watchdog *)

Lemma stop_trace_has_no_callback (env : Env) (a : Service) :
  errorCalls ([EvSet FShuttingDown true]
              ++ endOfAudio env a ++ releaseDevice a ++ closeConnection a
              ++ [EvSet FConnected false; EvSet FListening false;
                  EvSet FShuttingDown false])%list = [] /\
  recognizedCalls ([EvSet FShuttingDown true]
                   ++ endOfAudio env a ++ releaseDevice a ++ closeConnection a
                   ++ [EvSet FConnected false; EvSet FListening false;
                       EvSet FShuttingDown false])%list = [] /\
  closes ([EvSet FShuttingDown true]
          ++ endOfAudio env a ++ releaseDevice a ++ closeConnection a
          ++ [EvSet FConnected false; EvSet FListening false;
              EvSet FShuttingDown false])%list
  = List.length (closeConnection a).
Proof.
  unfold endOfAudio, releaseDevice, closeConnection.
  destruct (isConnected a), (conn a), (stream a); simpl; auto.
Qed.

(** X11. When the watchdog timer expires during a session, the flush task
    performs the same teardown as a stop, once, and ends: the engine is
    left at rest, the error callback and the recognized-text callback are
    not invoked, and a stop requested afterwards finds nothing to do. *)
Theorem watchdog_expiry_is_one_teardown
    (unmarshal : string -> option SpeechResultMessage)
    (a : Service) (r f : nat) (env envStop : Env) :
  isListening a = true ->
  exists tr,
    run unmarshal [WatchdogTimer env; CallStop envStop] (mkSystem a r (S f))
    = Done (mkSystem (stopped a) r f, tr) /\
    tr = traceOf (StopContinuousRecognition env a) /\
    errorCalls tr = [] /\ recognizedCalls tr = [] /\
    closes tr = List.length (closeConnection a) /\
    Idle (stopped a).
Proof.
  intros HL.
  cbn [run step svc flushTasks recvTasks].
  unfold handleAudioStreaming_timeout, bind at 1.
  rewrite (stop_while_listening env a HL).
  cbn [ret after_pass Nat.pred svc flushTasks recvTasks].
  rewrite (stop_while_not_listening envStop (stopped a)) by reflexivity.
  cbn [traceOf].
  pose proof (stop_trace_has_no_callback env a) as (He & Hr & Hc).
  eexists. split; [reflexivity |].
  rewrite !app_nil_r.
  repeat split; try assumption; apply stopped_is_idle.
Qed.

Lemma watchdog_expiry_witness :
  exists tr,
    run sampleUnmarshal [WatchdogTimer envOk; CallStop envOk]
        (mkSystem sampleSession 1 1)
    = Done (mkSystem (stopped sampleSession) 1 0, tr) /\
    errorCalls tr = [] /\ closes tr = 1%nat.
Proof.
  destruct (watchdog_expiry_is_one_teardown sampleUnmarshal sampleSession
              1 0 envOk envOk eq_refl)
    as (tr & Hrun & _ & Herr & _ & Hcloses & _).
  exists tr. repeat split; assumption.
Defined.

Lemma audio_side_without_flush_task
    (unmarshal : string -> option SpeechResultMessage)
    (later : list Action) (a : Service) (r : nat) (s : Stream) :
  isListening a = true -> isConnected a = true -> stream a = Some s ->
  Forall audioSide later ->
  run unmarshal later (mkSystem a r 0)
  = Done (mkSystem (with_audioBuffer (audioBuffer a ++ samplesOf later) a) r 0, []).
Proof.
  intros HL HC HS Hall. revert a HL HC HS.
  induction Hall as [| act later Hact Hlater IH]; intros a HL HC HS.
  - simpl. rewrite app_nil_r, with_audioBuffer_same. reflexivity.
  - destruct act as [env | env | input | env | env | rr];
      try contradiction; cbn [run step svc flushTasks recvTasks samplesOf].
    + rewrite HS. simpl in Hact.
      rewrite processAudio_gate_open by assumption.
      rewrite (IH (with_audioBuffer (audioBuffer a ++ input) a)) by assumption.
      simpl. rewrite app_assoc. reflexivity.
    + rewrite (IH a) by assumption. reflexivity.
    + rewrite (IH a) by assumption. reflexivity.
Qed.

(** X12. A flush write that fails does not tear the session down.  The
    error callback (when registered) gets the write error, the flush task
    ends, and the service stays listening and connected with the unsent
    samples still buffered.  From then on, whatever audio arrives is only
    appended to the buffer: no frame is sent, nothing is closed, and the
    watchdog, which lived in the flush task, cannot fire any more. *)
Theorem failed_flush_write_ends_streaming
    (unmarshal : string -> option SpeechResultMessage)
    (a : Service) (r : nat) (c : Conn) (s : Stream) (e : error)
    (env : Env) (later : list Action) :
  isListening a = true -> isConnected a = true -> conn a = Some c ->
  stream a = Some s -> audioBuffer a <> [] ->
  writeResult env = Some e ->
  Forall audioSide later ->
  run unmarshal (FlushTick env :: later) (mkSystem a r 1)
  = Done (mkSystem (with_audioBuffer (audioBuffer a ++ samplesOf later) a) r 0,
          EvWriteBinary c (audioMessage (requestId a) (now env) (audioBuffer a))
          :: reportError a e).
Proof.
  intros HL HC HN HS HB HW Hall.
  cbn [run step svc flushTasks recvTasks].
  rewrite (tick_send_fails env a c e HL HC HN HB HW).
  cbn [after_pass Nat.pred].
  rewrite (audio_side_without_flush_task unmarshal later a r s HL HC HS Hall).
  rewrite app_nil_r. reflexivity.
Qed.

Lemma failed_flush_write_witness :
  run sampleUnmarshal
    [FlushTick envWriteFails; AudioCallback [4; 5]; FlushTick envOk;
     WatchdogTimer envOk; AudioCallback [6]; FlushTick envOk]
    (mkSystem (with_audioBuffer [1; 2; 3] sampleSession) 1 1)
  = Done (mkSystem (with_audioBuffer [1; 2; 3; 4; 5; 6] sampleSession) 1 0,
          [EvWriteBinary 7%nat
             (audioMessage (requestId sampleSession) sampleTime [1; 2; 3]);
           EvError (ErrorString "write: broken pipe")]).
Proof.
  apply (failed_flush_write_ends_streaming sampleUnmarshal
           (with_audioBuffer [1; 2; 3] sampleSession) 1 7%nat 3%nat
           (ErrorString "write: broken pipe") envWriteFails
           [AudioCallback [4; 5]; FlushTick envOk; WatchdogTimer envOk;
            AudioCallback [6]; FlushTick envOk]);
    try reflexivity; try discriminate.
  repeat constructor; discriminate.
Defined.

(** ** The connection test and the final close *)

(** X13. What [TestConnection] leaves behind.  After a failed dial the
    service is untouched and nothing was opened.  After a successful test
    the connection it opened has been closed and the service is not
    connected.  When the configuration frame cannot be sent, the test
    returns the error with the connection it opened still open: connected
    flag set, handle kept, no close.  In no case are the listening flag, the
    audio device or the buffer touched, and no callback is invoked. *)
Theorem testConnection_outcomes (env : Env) (a : Service) :
  (forall e, dialResult env = Err e ->
     exists err tr,
       TestConnection env a = Done (Some err, a, tr) /\
       connectionsOpened tr = 0%nat /\ closes tr = 0%nat) /\
  (forall c, dialResult env = Ok c -> writeResult env = None ->
     exists a' tr,
       TestConnection env a = Done (None, a', tr) /\
       isConnected a' = false /\ conn a' = None /\
       connectionsOpened tr = 1%nat /\ closes tr = 1%nat /\
       In (EvConnClose c) tr) /\
  (forall c e, dialResult env = Ok c -> writeResult env = Some e ->
     exists a' tr,
       TestConnection env a
       = Done (Some (Errorf "connection test failed: %v" e), a', tr) /\
       isConnected a' = true /\ conn a' = Some c /\
       connectionsOpened tr = 1%nat /\ closes tr = 0%nat) /\
  (forall res a' tr,
     TestConnection env a = Done (res, a', tr) ->
     isListening a' = isListening a /\ stream a' = stream a /\
     audioBuffer a' = audioBuffer a /\
     errorCalls tr = [] /\ recognizedCalls tr = []).
Proof.
  split_service a. split_env env. unfold TestConnection.
  split; [| split; [| split]].
  - intros e Hd. simpl in Hd. subst dr.
    do 2 eexists. split; [run_method; reflexivity |]. split; reflexivity.
  - intros c Hd Hw. simpl in Hd, Hw. subst dr wr.
    do 2 eexists. split; [run_method; reflexivity |].
    simpl. repeat split; auto.
  - intros c e Hd Hw. simpl in Hd, Hw. subst dr wr.
    do 2 eexists. split; [run_method; reflexivity |].
    simpl. repeat split; auto.
  - intros res a' tr.
    destruct dr as [c | e]; [destruct wr as [e |] |];
      run_method; intros [= <- <- <-]; simpl; repeat split.
Qed.

Lemma testConnection_outcomes_witness :
  (exists a' tr,
     TestConnection envOk idleService = Done (None, a', tr) /\
     isConnected a' = false /\ conn a' = None /\ closes tr = 1%nat) /\
  (exists a' tr,
     TestConnection envWriteFails idleService
     = Done (Some (Errorf "connection test failed: %v"
                     (ErrorString "write: broken pipe")), a', tr) /\
     isConnected a' = true /\ conn a' = Some 7%nat /\ closes tr = 0%nat).
Proof.
  destruct (testConnection_outcomes envOk idleService) as (_ & Hok & _).
  destruct (testConnection_outcomes envWriteFails idleService) as (_ & _ & Hfail & _).
  split.
  - destruct (Hok 7%nat eq_refl eq_refl) as (a' & tr & H & HC & HN & _ & Hcl & _).
    exists a', tr. auto.
  - destruct (Hfail 7%nat (ErrorString "write: broken pipe") eq_refl eq_refl)
      as (a' & tr & H & HC & HN & _ & Hcl).
    exists a', tr. auto.
Defined.



(** X15. [Close] leaves the engine at rest from any state: not listening,
    not connected, no handle.  A connection handle the service held is
    closed, once; a session in progress is torn down first (its audio
    device released); no callback is invoked; and a second [Close] closes
    nothing and sends nothing. *)
Theorem close_releases_everything (env env2 : Env) (a : Service) :
  exists a' tr,
    Close env a = Done (tt, a', tr) /\
    Idle a' /\
    (isListening a = true \/ stream a = None -> stream a' = None) /\
    closes tr = List.length (closeConnection a) /\
    (forall c, conn a = Some c -> In (EvConnClose c) tr) /\
    errorCalls tr = [] /\ recognizedCalls tr = [] /\
    sameIdentity a a' /\
    exists tr2,
      Close env2 a' = Done (tt, a', tr2) /\
      closes tr2 = 0%nat /\ binaryFrames tr2 = [] /\ tr2 = [EvSet FConnected false].
Proof.
  split_service a. unfold Close, closeConnection, sameIdentity.
  destruct il, ic, cn as [c |], st as [s |];
    do 2 eexists; (split; [run_method; reflexivity |]);
    unfold Idle; simpl;
    (repeat split; auto; try (intros [H | H]; congruence);
     try (intros c' [= <-]; repeat (first [left; reflexivity | right]); fail);
     try discriminate);
    try (eexists; split; [run_method; reflexivity |]; repeat split).
Qed.

(** X16. The connection a start leaves open when the configuration frame
    cannot be sent is not released by a stop: the service is not
    listening, so the stop does nothing and the connection stays open.
    [Close] does release it. *)
Theorem leaked_connection_needs_close
    (unmarshal : string -> option SpeechResultMessage)
    (a : Service) (c : Conn) (e : error) (env envStop envClose : Env)
    (nr nf : nat) :
  Idle a ->
  dialResult env = Ok c -> writeResult env = Some e ->
  (exists sys tr,
     runCalls unmarshal [Engine (CallStart env); Engine (CallStop envStop)]
       (mkSystem a nr nf) = Done (sys, tr) /\
     conn (svc sys) = Some c /\ isConnected (svc sys) = true /\
     closes tr = 0%nat) /\
  (exists sys tr,
     runCalls unmarshal [Engine (CallStart env); CallClose envClose]
       (mkSystem a nr nf) = Done (sys, tr) /\
     Idle (svc sys) /\ closes tr = 1%nat /\ In (EvConnClose c) tr).
Proof.
  intros (HL & HC & HN) Hd Hw.
  split.
  - cbn [runCalls stepCall step svc flushTasks recvTasks].
    rewrite (start_config_send_fails env a c e HL Hd Hw).
    rewrite (stop_while_not_listening envStop _) by exact HL.
    do 2 eexists. split; [reflexivity |]. simpl. auto.
  - cbn [runCalls stepCall step onService svc flushTasks recvTasks].
    rewrite (start_config_send_fails env a c e HL Hd Hw).
    cbn [svc].
    split_service a. simpl in *. subst il ic cn.
    unfold Close. run_method.
    do 2 eexists. split; [reflexivity |].
    unfold Idle. simpl. repeat split; auto.
Qed.

Lemma leaked_connection_witness :
  (exists sys tr,
     runCalls sampleUnmarshal
       [Engine (CallStart envWriteFails); Engine (CallStop envOk)]
       (newSystem "key" "westeurope" "en-US" "id") = Done (sys, tr) /\
     conn (svc sys) = Some 7%nat /\ closes tr = 0%nat) /\
  (exists sys tr,
     runCalls sampleUnmarshal
       [Engine (CallStart envWriteFails); CallClose envOk]
       (newSystem "key" "westeurope" "en-US" "id") = Done (sys, tr) /\
     Idle (svc sys) /\ closes tr = 1%nat).
Proof.
  assert (HI : Idle (NewAzureWebSocketSpeechService "key" "westeurope" "en-US" "id"))
    by (unfold Idle; simpl; auto).
  destruct (leaked_connection_needs_close sampleUnmarshal _ 7%nat
              (ErrorString "write: broken pipe") envWriteFails envOk envOk
              0 0 HI eq_refl eq_refl)
    as [(s1 & t1 & H1 & Hc1 & _ & Hcl1) (s2 & t2 & H2 & Hi2 & Hcl2 & _)].
  split; [exists s1, t1 | exists s2, t2]; auto.
Defined.



(** * The program around the engine *)

(** X18. Pressing F12 while recording does not leave the engine stopped.
    The handler stops the session and then, in the same call, runs the
    start that follows its two branches: when the network and the audio
    device answer, a new session is listening on a new connection when the
    handler returns, the program's recording flag is set again, and the
    status shown is [Ready]. *)
Theorem f12_while_recording_restarts_session
    (env1 env2 : Env) (app : Main.App) (a : Service) (c2 : Conn) (s2 : Stream) :
  Main.azureSpeechWebSocket app = Some a ->
  Main.isRecording app = true ->
  isListening a = true ->
  dialResult env2 = Ok c2 -> writeResult env2 = None ->
  openResult env2 = Ok s2 -> startResult env2 = None ->
  exists app' a' tr,
    Main.onF12Pressed env1 env2 app = Done (app', tr) /\
    Main.azureSpeechWebSocket app' = Some a' /\
    isListening a' = true /\ isConnected a' = true /\ conn a' = Some c2 /\
    Main.isRecording app' = true /\
    Main.currentStatus app' = "Ready" /\
    Main.notices tr = [Main.Stopping] /\
    Main.engineEvents tr
    = (traceOf (StopContinuousRecognition env1 a)
       ++ traceOf (StartContinuousRecognition env2 (stopped a)))%list /\
    started FlushTask (Main.engineEvents tr) = 1%nat /\
    connectionsOpened (Main.engineEvents tr) = 1%nat.
Proof.
  intros Hws Hrec HL Hd Hw Ho Hs.
  unfold Main.onF12Pressed, Main.startRecognition.
  rewrite Hws, Hrec.
  rewrite (stop_while_listening env1 a HL).
  cbn [Main.azureSpeechWebSocket Main.updateStatus Main.setRecording
         Main.setService].
  rewrite (start_succeeds env2 (stopped a) c2 s2 eq_refl Hd Hw Ho Hs).
  do 3 eexists. split; [reflexivity |].
  cbn [Main.azureSpeechWebSocket Main.updateStatus Main.setRecording
         Main.setService Main.isRecording Main.currentStatus traceOf].
  split; [reflexivity |].
  repeat (split; [reflexivity |]).
  unfold endOfAudio, releaseDevice, closeConnection.
  destruct (isConnected a), (conn a), (stream a); simpl; repeat split; reflexivity.
Qed.

Lemma f12_while_recording_witness :
  exists app' a' tr,
    Main.onF12Pressed envOk
      (mkEnv sampleTime (Ok 8%nat) None (Ok 4%nat) None "id3")
      (Main.mkApp (Some sampleSession) "Listening" true) = Done (app', tr) /\
    Main.azureSpeechWebSocket app' = Some a' /\
    isListening a' = true /\ conn a' = Some 8%nat /\
    Main.isRecording app' = true.
Proof.
  destruct (f12_while_recording_restarts_session envOk
              (mkEnv sampleTime (Ok 8%nat) None (Ok 4%nat) None "id3")
              (Main.mkApp (Some sampleSession) "Listening" true)
              sampleSession 8%nat 4%nat
              eq_refl eq_refl eq_refl eq_refl eq_refl eq_refl eq_refl)
    as (app' & a' & tr & Hrun & Hws & HL & _ & HN & Hrec & _).
  exists app', a', tr. auto.
Defined.

(** X19. Pressing F12 while idle starts one session, although the handler
    calls start twice: the second call finds the service listening and does
    nothing.  One dial, one connection, one flush task and one receive
    task; the recording flag is set and the status shown is [Listening]. *)
Theorem f12_while_idle_opens_one_connection
    (env1 env2 : Env) (app : Main.App) (a : Service) (c : Conn) (s : Stream) :
  Main.azureSpeechWebSocket app = Some a ->
  Main.isRecording app = false ->
  isListening a = false ->
  dialResult env1 = Ok c -> writeResult env1 = None ->
  openResult env1 = Ok s -> startResult env1 = None ->
  exists app' tr,
    Main.onF12Pressed env1 env2 app = Done (app', tr) /\
    Main.azureSpeechWebSocket app' = Some (listening c s (freshId env1) a) /\
    Main.isRecording app' = true /\
    Main.currentStatus app' = "Listening" /\
    Main.notices tr = [Main.StreamingLive] /\
    Main.engineEvents tr = traceOf (StartContinuousRecognition env1 a) /\
    dials (Main.engineEvents tr) = 1%nat /\
    connectionsOpened (Main.engineEvents tr) = 1%nat /\
    started FlushTask (Main.engineEvents tr) = 1%nat /\
    started RecvTask (Main.engineEvents tr) = 1%nat.
Proof.
  intros Hws Hrec HL Hd Hw Ho Hs.
  unfold Main.onF12Pressed, Main.startRecognition.
  rewrite Hws, Hrec.
  rewrite (start_succeeds env1 a c s HL Hd Hw Ho Hs).
  cbn [Main.azureSpeechWebSocket Main.updateStatus Main.setRecording
         Main.setService].
  rewrite (start_while_listening env2 (listening c s (freshId env1) a))
    by reflexivity.
  do 2 eexists. split; [reflexivity |].
  simpl. repeat split; reflexivity.
Qed.

Lemma f12_while_idle_witness :
  exists app' tr,
    Main.onF12Pressed envOk envOk (Main.mkApp (Some idleService) "Ready" false)
    = Done (app', tr) /\
    Main.isRecording app' = true /\
    dials (Main.engineEvents tr) = 1%nat.
Proof.
  destruct (f12_while_idle_opens_one_connection envOk envOk
              (Main.mkApp (Some idleService) "Ready" false)
              idleService 7%nat 3%nat
              eq_refl eq_refl eq_refl eq_refl eq_refl eq_refl eq_refl)
    as (app' & tr & Hrun & _ & Hrec & _ & _ & _ & Hd & _).
  exists app', tr. auto.
Defined.

(** X20. A start that fails in the branch is repeated at once by the start
    that follows the branches.  When the dial fails the first time and the
    second attempt succeeds, the handler returns with a session listening
    and the recording flag set, while the user has been notified that the
    start failed and the status shown is [Error]. *)
Theorem f12_failed_start_is_tried_again
    (env1 env2 : Env) (app : Main.App) (a : Service) (e : error)
    (c : Conn) (s : Stream) :
  Main.azureSpeechWebSocket app = Some a ->
  Main.isRecording app = false ->
  isListening a = false ->
  dialResult env1 = Err e ->
  dialResult env2 = Ok c -> writeResult env2 = None ->
  openResult env2 = Ok s -> startResult env2 = None ->
  exists app' tr,
    Main.onF12Pressed env1 env2 app = Done (app', tr) /\
    Main.azureSpeechWebSocket app' = Some (listening c s (freshId env2) a) /\
    Main.isRecording app' = true /\
    Main.currentStatus app' = "Error" /\
    Main.notices tr = [Main.StreamingLive; Main.StartFailed] /\
    dials (Main.engineEvents tr) = 2%nat /\
    connectionsOpened (Main.engineEvents tr) = 1%nat.
Proof.
  intros Hws Hrec HL Hd1 Hd Hw Ho Hs.
  unfold Main.onF12Pressed, Main.startRecognition.
  rewrite Hws, Hrec.
  rewrite (start_dial_fails env1 a e HL Hd1).
  cbn [Main.azureSpeechWebSocket Main.updateStatus Main.setRecording
         Main.setService].
  rewrite (start_succeeds env2 a c s HL Hd Hw Ho Hs).
  do 2 eexists. split; [reflexivity |].
  simpl. repeat split; reflexivity.
Qed.

Lemma f12_failed_start_witness :
  exists app' tr,
    Main.onF12Pressed
      (mkEnv sampleTime (Err (ErrorString "dial tcp: timeout")) None
         (Ok 3%nat) None "id2")
      envOk (Main.mkApp (Some idleService) "Ready" false)
    = Done (app', tr) /\
    Main.isRecording app' = true /\
    Main.currentStatus app' = "Error".
Proof.
  destruct (f12_failed_start_is_tried_again
              (mkEnv sampleTime (Err (ErrorString "dial tcp: timeout")) None
                 (Ok 3%nat) None "id2")
              envOk (Main.mkApp (Some idleService) "Ready" false)
              idleService (ErrorString "dial tcp: timeout") 7%nat 3%nat
              eq_refl eq_refl eq_refl eq_refl eq_refl eq_refl eq_refl eq_refl)
    as (app' & tr & Hrun & _ & Hrec & Hst & _).
  exists app', tr. auto.
Defined.

(** X21. After the engine has reported a stream error, [onSpeechError]
    clears the program's recording flag but the engine is still listening.
    The next F12 therefore takes the start branch, and both of its starts
    find the service listening: nothing is dialled, no task is started and
    the service is untouched, while the user is told that streaming is
    live and the recording flag is set again. *)
Theorem f12_after_stream_error
    (env1 env2 : Env) (app : Main.App) (a : Service) (err : error) :
  Main.azureSpeechWebSocket app = Some a ->
  isListening a = true ->
  exists app' tr,
    Main.onF12Pressed env1 env2 (fst (Main.onSpeechError err app))
    = Done (app', tr) /\
    Main.azureSpeechWebSocket app' = Some a /\
    Main.isRecording app' = true /\
    Main.currentStatus app' = "Listening" /\
    tr = [Main.Notify Main.StreamingLive] /\
    Main.engineEvents tr = [].
Proof.
  intros Hws HL.
  unfold Main.onF12Pressed, Main.startRecognition, Main.onSpeechError.
  cbn [fst Main.azureSpeechWebSocket Main.updateStatus Main.setRecording
         Main.setService Main.isRecording].
  rewrite Hws.
  rewrite (start_while_listening env1 a HL).
  cbn [Main.azureSpeechWebSocket Main.updateStatus Main.setRecording
         Main.setService Main.isRecording].
  rewrite (start_while_listening env2 a HL).
  do 2 eexists. split; [reflexivity |].
  simpl. repeat split; reflexivity.
Qed.

Lemma f12_after_stream_error_witness :
  exists app' tr,
    Main.onF12Pressed envOk envOk
      (fst (Main.onSpeechError (ErrorString "write: broken pipe")
              (Main.mkApp (Some sampleSession) "Listening" true)))
    = Done (app', tr) /\
    Main.azureSpeechWebSocket app' = Some sampleSession /\
    Main.engineEvents tr = [].
Proof.
  destruct (f12_after_stream_error envOk envOk
              (Main.mkApp (Some sampleSession) "Listening" true)
              sampleSession (ErrorString "write: broken pipe")
              eq_refl eq_refl)
    as (app' & tr & Hrun & Hws & _ & _ & _ & Hev).
  exists app', tr. auto.
Defined.

(** * The batch recorder *)

Lemma int32ToBytes_value (v : Z) :
  0 <= v < 2147483648 ->
  Audio.littleEndian32At 0 (Audio.int32ToBytes (Audio.int32 v)) = Some v.
Proof.
  intros Hv. unfold Audio.int32.
  replace ((v + 2147483648) mod 4294967296 - 2147483648) with v
    by (rewrite Z.mod_small; lia).
  unfold Audio.littleEndian32At, Audio.int32ToBytes, Wire.byte. cbn [skipn].
  rewrite !Z.shiftr_div_pow2 by lia.
  change (2 ^ 8) with 256. change (2 ^ 16) with 65536.
  change (2 ^ 24) with 16777216.
  f_equal. Z.div_mod_to_equations. lia.
Qed.

Lemma writeWAVHeader_length (dataSize : Z) :
  List.length (Audio.writeWAVHeader dataSize) = 44%nat.
Proof. reflexivity. Qed.

(** X22. The header [writeWAVHeader] writes is always 44 bytes long and
    describes mono 16-bit PCM at 16 kHz.  For a data size that fits a
    32-bit WAV file, the data-size field at offset 40 reads back as the
    data size and the RIFF size field at offset 4 as the data size plus
    36. *)
Theorem wav_header_layout (dataSize : Z) :
  0 <= dataSize <= 2147483611 ->
  List.length (Audio.writeWAVHeader dataSize) = 44%nat /\
  firstn 4 (Audio.writeWAVHeader dataSize) = Wire.bytes_of_string "RIFF" /\
  firstn 8 (skipn 8 (Audio.writeWAVHeader dataSize))
  = Wire.bytes_of_string "WAVEfmt " /\
  firstn 20 (skipn 16 (Audio.writeWAVHeader dataSize))
  = [16; 0; 0; 0; 1; 0; 1; 0; 128; 62; 0; 0; 0; 125; 0; 0; 2; 0; 16; 0] /\
  firstn 4 (skipn 36 (Audio.writeWAVHeader dataSize)) = Wire.bytes_of_string "data" /\
  Audio.littleEndian32At 40 (Audio.writeWAVHeader dataSize) = Some dataSize /\
  Audio.littleEndian32At 4 (Audio.writeWAVHeader dataSize) = Some (dataSize + 36).
Proof.
  intros Hd.
  split; [reflexivity |]. split; [reflexivity |]. split; [reflexivity |].
  split; [vm_compute; reflexivity |]. split; [reflexivity |].
  split.
  - change (Audio.littleEndian32At 40 (Audio.writeWAVHeader dataSize))
      with (Audio.littleEndian32At 0 (Audio.int32ToBytes (Audio.int32 dataSize))).
    apply int32ToBytes_value. lia.
  - change (Audio.littleEndian32At 4 (Audio.writeWAVHeader dataSize))
      with (Audio.littleEndian32At 0
              (Audio.int32ToBytes (Audio.int32 (Wire.int64 (dataSize + 36))))).
    replace (Wire.int64 (dataSize + 36)) with (dataSize + 36)
      by (unfold Wire.int64; rewrite Z.mod_small; lia).
    apply int32ToBytes_value. lia.
Qed.

Lemma wav_header_layout_witness :
  Audio.littleEndian32At 40 (Audio.writeWAVHeader 32000) = Some 32000 /\
  Audio.littleEndian32At 4 (Audio.writeWAVHeader 32000) = Some 32036.
Proof.
  destruct (wav_header_layout 32000 ltac:(lia))
    as (_ & _ & _ & _ & _ & Hdata & Hriff).
  split; assumption.
Defined.

Lemma recorder_sample_bytes (s : Z) :
  [Wire.byte s; Wire.byte (Z.shiftr s 8)]
  = Wire.LittleEndian_PutUint16 (Wire.uint16 s).
Proof.
  unfold Wire.LittleEndian_PutUint16, Wire.byte, Wire.uint16.
  rewrite !Z.shiftr_div_pow2 by lia. change (2 ^ 8) with 256.
  f_equal; [| f_equal]; Z.div_mod_to_equations; lia.
Qed.

Lemma recorder_bytes_are_engine_bytes (input : list Z) :
  Audio.processAudio input = audioBytes input.
Proof.
  unfold Audio.processAudio, audioBytes.
  induction input as [| s rest IH]; [reflexivity |].
  cbn [flat_map]. rewrite IH, recorder_sample_bytes. reflexivity.
Qed.

Lemma flat_map_audioBytes (chunks : list (list Z)) :
  flat_map Audio.processAudio chunks = audioBytes (List.concat chunks).
Proof.
  induction chunks as [| chunk rest IH]; [reflexivity |].
  cbn [flat_map List.concat]. rewrite IH, recorder_bytes_are_engine_bytes.
  unfold audioBytes. rewrite flat_map_app. reflexivity.
Qed.

(** X23. The batch recorder writes each sample as the same two bytes the
    streaming engine puts into an audio frame, so what it records reads
    back, pair by pair, as the samples the audio callback delivered. *)
Theorem recorder_encoding_matches_engine (input : list Z) :
  Audio.processAudio input = audioBytes input /\
  List.length (Audio.processAudio input) = (2 * List.length input)%nat /\
  (Forall isInt16 input -> decodePCM (Audio.processAudio input) = input).
Proof.
  rewrite recorder_bytes_are_engine_bytes.
  split; [reflexivity |]. split; [apply audioBytes_length |].
  apply decodePCM_audioBytes.
Qed.

Lemma recorder_encoding_witness :
  Audio.processAudio [0; -1; 32767; -32768] = [0; 0; 255; 255; 255; 127; 0; 128] /\
  decodePCM (Audio.processAudio [0; -1; 32767; -32768]) = [0; -1; 32767; -32768].
Proof.
  destruct (recorder_encoding_matches_engine [0; -1; 32767; -32768])
    as (_ & _ & Hdecode).
  split; [vm_compute; reflexivity |].
  apply Hdecode. repeat constructor; unfold isInt16; lia.
Defined.

Lemma wav_header_common (dataSize : Z) :
  0 <= dataSize <= 2147483611 ->
  Audio.littleEndian32At 40 (Audio.writeWAVHeader dataSize) = Some dataSize /\
  Audio.littleEndian32At 4 (Audio.writeWAVHeader dataSize) = Some (dataSize + 36).
Proof.
  intros Hd. split.
  - change (Audio.littleEndian32At 40 (Audio.writeWAVHeader dataSize))
      with (Audio.littleEndian32At 0 (Audio.int32ToBytes (Audio.int32 dataSize))).
    apply int32ToBytes_value. lia.
  - change (Audio.littleEndian32At 4 (Audio.writeWAVHeader dataSize))
      with (Audio.littleEndian32At 0
              (Audio.int32ToBytes (Audio.int32 (Wire.int64 (dataSize + 36))))).
    replace (Wire.int64 (dataSize + 36)) with (dataSize + 36)
      by (unfold Wire.int64; rewrite Z.mod_small; lia).
    apply int32ToBytes_value. lia.
Qed.

(** X24. A finished recording is a consistent WAV file.  The file holds
    the header written at the start (for a data size of zero) followed by
    the bytes of every audio callback; [finalizeWAVFile] replaces the header
    by one whose data size is the number of sample bytes, two per sample,
    and whose RIFF size is that plus 36.  The sample bytes are untouched
    and read back as the samples, in the order they were delivered. *)
Theorem recorded_file_is_consistent (chunks : list (list Z)) :
  Forall isInt16 (List.concat chunks) ->
  2 * Wire.len (List.concat chunks) <= 2147483611 ->
  let recorded :=
    (Audio.writeWAVHeader 0 ++ flat_map Audio.processAudio chunks)%list in
  Audio.finalizeWAVFile recorded
  = (Audio.writeWAVHeader (2 * Wire.len (List.concat chunks))
     ++ flat_map Audio.processAudio chunks)%list /\
  Audio.littleEndian32At 40 (Audio.finalizeWAVFile recorded)
  = Some (2 * Wire.len (List.concat chunks)) /\
  Audio.littleEndian32At 4 (Audio.finalizeWAVFile recorded)
  = Some (Wire.len (Audio.finalizeWAVFile recorded) - 8) /\
  decodePCM (skipn 44 (Audio.finalizeWAVFile recorded)) = List.concat chunks.
Proof.
  intros Hsamples Hfit recorded.
  assert (Hfinal : Audio.finalizeWAVFile recorded
                   = (Audio.writeWAVHeader (2 * Wire.len (List.concat chunks))
                      ++ flat_map Audio.processAudio chunks)%list).
  { subst recorded. unfold Audio.finalizeWAVFile, Audio.writeAtStart.
    rewrite writeWAVHeader_length.
    replace (Wire.len (Audio.writeWAVHeader 0 ++ flat_map Audio.processAudio chunks)%list - 44)
      with (2 * Wire.len (List.concat chunks)).
    - reflexivity.
    - unfold Wire.len. rewrite length_app, writeWAVHeader_length,
        flat_map_audioBytes, audioBytes_length. lia. }
  assert (Hpos : 0 <= Wire.len (List.concat chunks)) by (unfold Wire.len; lia).
  destruct (wav_header_common (2 * Wire.len (List.concat chunks)) ltac:(lia))
    as (Hdata & Hriff).
  rewrite Hfinal.
  split; [reflexivity |].
  split.
  { rewrite <- Hdata. reflexivity. }
  split.
  { change (Audio.littleEndian32At 4
              (Audio.writeWAVHeader (2 * Wire.len (List.concat chunks))
               ++ flat_map Audio.processAudio chunks)%list)
      with (Audio.littleEndian32At 4
              (Audio.writeWAVHeader (2 * Wire.len (List.concat chunks)))).
    rewrite Hriff. f_equal.
    unfold Wire.len. rewrite length_app, writeWAVHeader_length,
      flat_map_audioBytes, audioBytes_length. lia. }
  change 44%nat
    with (List.length (Audio.writeWAVHeader (2 * Wire.len (List.concat chunks)))).
  rewrite skipn_app, skipn_all, Nat.sub_diag. cbn [skipn app].
  rewrite flat_map_audioBytes. apply decodePCM_audioBytes. exact Hsamples.
Qed.

Lemma recorded_file_witness :
  Audio.littleEndian32At 40
    (Audio.finalizeWAVFile
       (Audio.writeWAVHeader 0
        ++ flat_map Audio.processAudio [[1; -2]; [3]])%list) = Some 6 /\
  decodePCM
    (skipn 44
       (Audio.finalizeWAVFile
          (Audio.writeWAVHeader 0
           ++ flat_map Audio.processAudio [[1; -2]; [3]])%list)) = [1; -2; 3].
Proof.
  destruct (recorded_file_is_consistent [[1; -2]; [3]])
    as (_ & Hdata & _ & Hdecode).
  - repeat constructor; unfold isInt16; lia.
  - vm_compute. discriminate.
  - split; [exact Hdata | exact Hdecode].
Defined.
